(** * Carrier concentrations of a doped semiconductor (src/src/App.tsx)

    A shallow embedding of [calculateConcentrations], the function of the
    application that computes the results, of the component state it reads
    and writes, and of the rest of the component: the editor of the
    constants ([updateMaterialProperty], [resetToDefaults], [isModified]),
    the formatting of the displayed numbers ([formatScientific],
    [formatEnergy]) and the event handlers of the interface, each followed
    by the effect that recomputes the results.

    - A JavaScript [number] is an IEEE 754 binary64 value; Rocq's primitive
      [float] is the same format with the same rounding, so the arithmetic
      of the source ([+], [-], [*], [/], [<], [>], [Math.sqrt], [Math.abs])
      is embedded as it runs, NaN, infinities and signed zeros included.
    - [x >> y] is the shift of ECMAScript: of [ToInt32 x] by [ToUint32 y]
      modulo 32.
    - [Math.exp], [Math.log] and [Math.pow] are "implementation-approximated"
      in ECMAScript: they are a parameter of the embedding ([MathImpl]).
      Theorems hold for every engine; a reference implementation
      ([RefMath]) evaluates the function on concrete inputs.
    - Reading [materials[selectedMaterial]] out of range raises a
      [TypeError]; nothing else in the function can raise.
    - [Math.log10], [toFixed], the conversion of a number to a string and
      [JSON.stringify] are parameters as well ([NumberImpl]); [RefFormat]
      is a reference implementation for concrete inputs.

    Facts about the results as real numbers (the mass-action law) go
    through [F2R], the real value of a binary64 number, and a bound on the
    rounding error of multiplication and division derived from their
    specification in [SpecFloat]. *)

From Stdlib Require Import ZArith Floats List String Bool Lia Reals Lra.
From Stdlib Require Import DecimalString.

Import ListNotations.

Set Warnings "-inexact-float".
Local Open Scope string_scope.
Local Open Scope float_scope.

(** ** JavaScript numbers *)

Module JS.

(** Truncation of a finite number toward zero, as an integer
    (ECMAScript [truncate]); 0 for NaN and the infinities. *)
Definition truncate (x : float) : Z :=
  match Prim2SF x with
  | S754_finite s m e =>
      let a := (if (0 <=? e)%Z then Z.shiftl (Zpos m) e
                else Z.shiftr (Zpos m) (- e))%Z in
      if s then (- a)%Z else a
  | _ => 0%Z
  end.

(** ECMAScript [ToInt32] and [ToUint32]. *)
Definition ToUint32 (x : float) : Z := (truncate x mod 2 ^ 32)%Z.

Definition ToInt32 (x : float) : Z :=
  let k := ToUint32 x in
  if (2 ^ 31 <=? k)%Z then (k - 2 ^ 32)%Z else k.

(** [x >> y]: the signed right shift of [ToInt32 x] by the low five bits
    of [ToUint32 y]; the result is an int32. *)
Definition shr (x y : float) : Z :=
  Z.shiftr (ToInt32 x) (Z.land (ToUint32 y) 31).

(** [ToBoolean] of an integral number: everything but zero is truthy. *)
Definition truthy (k : Z) : bool := negb (k =? 0)%Z.

End JS.

(** [Math.sqrt] and [Math.abs]: the operations of IEEE 754 (engines compute
    the square root with the correctly rounded instruction). *)
Module Math.

Definition sqrt (x : float) : float := PrimFloat.sqrt x.

Definition abs (x : float) : float := PrimFloat.abs x.

End Math.

(** The functions of [Math] that ECMAScript leaves to the engine. *)
Record MathImpl : Type := {
  Math_exp : float -> float;
  Math_log : float -> float;
  Math_pow : float -> float -> float
}.

(** ** Data *)

Record MaterialProperties : Type := {
  name : string;
  bandgap : float;
  Nc300 : float;
  Nv300 : float;
  temperatureCoeff : float
}.

Record Results : Type := {
  ni : float;
  n : float;
  p : float;
  fermiLevel : float;
  conductionType : string
}.

(** The state of the component that the function reads and writes. *)
Record AppState : Type := {
  materials : list MaterialProperties;
  selectedMaterial : nat;
  temperature : float;
  donorConc : float;
  acceptorConc : float;
  kB : float;
  results : Results
}.

Definition setResults (st : AppState) (r : Results) : AppState :=
  {| materials := materials st;
     selectedMaterial := selectedMaterial st;
     temperature := temperature st;
     donorConc := donorConc st;
     acceptorConc := acceptorConc st;
     kB := kB st;
     results := r |}.

(** How a call ends: normally, or with a thrown exception.  The only
    exception the function can raise is the [TypeError] of reading a property
    of [undefined], when [materials[selectedMaterial]] is out of range. *)
Inductive Exception : Type := TypeError.

Inductive Outcome (A : Type) : Type :=
| Completed (a : A)
| Thrown (e : Exception).
Arguments Completed {A} a.
Arguments Thrown {A} e.

Definition raises {A : Type} (o : Outcome A) : Prop :=
  exists e, o = Thrown e.

(** ** The function *)

Section Solver.

Variable M : MathImpl.

(** Lines 63-68: bandgap and effective densities of states at temperature. *)
Definition Eg (material : MaterialProperties) (temperature : float) : float :=
  bandgap material + temperatureCoeff material * (temperature - 300).

Definition tempRatio (temperature : float) : float := temperature / 300.

Definition Nc (material : MaterialProperties) (temperature : float) : float :=
  Nc300 material * Math_pow M (tempRatio temperature) 1.5.

Definition Nv (material : MaterialProperties) (temperature : float) : float :=
  Nv300 material * Math_pow M (tempRatio temperature) 1.5.

(** Line 71: the intrinsic carrier concentration. *)
Definition intrinsic (material : MaterialProperties) (temperature kB : float)
  : float :=
  Math.sqrt (Nc material temperature * Nv material temperature)
  * Math_exp M (- Eg material temperature / (2 * kB * temperature)).

(** Line 74. *)
Definition netDoping (donorConc acceptorConc : float) : float :=
  donorConc - acceptorConc.

(** The condition [x >> y] of lines 87 and 101. *)
Definition shiftTest (x y : float) : bool := JS.truthy (JS.shr x y).

(** Lines 76-112: the three-way branch, on the values of [ni] and
    [netDoping] computed above. *)
Definition carriers (ni netDoping kB temperature : float) : Results :=
  if Math.abs netDoping <? ni then
    {| ni := ni; n := ni; p := ni; fermiLevel := 0;
       conductionType := "Intrinsic" |}
  else if 0 <? netDoping then
    let '(n, p) :=
      if shiftTest netDoping ni then
        let n := netDoping in
        let p := ni * ni / n in
        (n, p)
      else
        let discriminant :=
          Math.sqrt (netDoping * netDoping + 4 * ni * ni) in
        let n := (netDoping + discriminant) / 2 in
        let p := ni * ni / n in
        (n, p) in
    {| ni := ni; n := n; p := p;
       fermiLevel := kB * temperature * Math_log M (n / ni);
       conductionType := "n-type" |}
  else
    let netAcceptor := Math.abs netDoping in
    let '(n, p) :=
      if shiftTest netAcceptor ni then
        let p := netAcceptor in
        let n := ni * ni / p in
        (n, p)
      else
        let discriminant :=
          Math.sqrt (netAcceptor * netAcceptor + 4 * ni * ni) in
        let p := (netAcceptor + discriminant) / 2 in
        let n := ni * ni / p in
        (n, p) in
    {| ni := ni; n := n; p := p;
       fermiLevel := - kB * temperature * Math_log M (p / ni);
       conductionType := "p-type" |}.

(** The computation of [calculateConcentrations] for a material. *)
Definition solve (material : MaterialProperties)
    (temperature donorConc acceptorConc kB : float) : Results :=
  carriers (intrinsic material temperature kB)
           (netDoping donorConc acceptorConc) kB temperature.

(** Lines 59-121. *)
Definition calculateConcentrations (st : AppState) : Outcome AppState :=
  match nth_error (materials st) (selectedMaterial st) with
  | None => Thrown TypeError
  | Some material =>
      Completed
        (setResults st
           (solve material (temperature st) (donorConc st)
                  (acceptorConc st) (kB st)))
  end.

End Solver.

(** ** A reference implementation of the engine's functions

    Used to run the function on inputs.  It gives the values ECMAScript
    prescribes at the special arguments and an approximation of a few units
    in the last place elsewhere. *)

Module RefMath.

Definition of_Z (k : Z) : float :=
  SF2Prim (binary_normalize prec emax k 0 false).

Definition ln2_hi : float := 0x1.62e42feep-1.
Definition ln2_lo : float := 0x1.a39ef35793c76p-33.
Definition ln2 : float := 0x1.62e42fefa39efp-1.
Definition inv_ln2 : float := 0x1.71547652b82fep0.

(** Horner evaluation of [c0 + x (c1 + x (c2 + ...))]. *)
Fixpoint horner (cs : list float) (x : float) : float :=
  match cs with
  | [] => 0
  | c :: cs' => c + x * horner cs' x
  end.

(** [1 / k!] for [k] from [0] to [len - 1]. *)
Fixpoint inv_factorials (len : nat) (k acc : float) : list float :=
  match len with
  | O => []
  | S len' => acc :: inv_factorials len' (k + 1) (acc / (k + 1))
  end.

Definition exp (x : float) : float :=
  if is_nan x then nan
  else if x =? 0 then 1
  else if 709.782712893384 <? x then infinity
  else if x <? -745.2 then 0
  else
    let k := JS.truncate (x * inv_ln2 + (if x <? 0 then -0.5 else 0.5)) in
    let r := (x - of_Z k * ln2_hi) - of_Z k * ln2_lo in
    Z.ldexp (horner (inv_factorials 15 0 1) r) k.

(** [1 / (2 k + 1)] for [k] from [0] to [len - 1]. *)
Fixpoint inv_odds (len : nat) (k : float) : list float :=
  match len with
  | O => []
  | S len' => 1 / k :: inv_odds len' (k + 2)
  end.

Definition log (x : float) : float :=
  if is_nan x then nan
  else if x <? 0 then nan
  else if x =? 0 then neg_infinity
  else if x =? infinity then infinity
  else
    let (m, e) := Z.frexp x in
    let (m, e) := if m <? 0x1.6a09e667f3bcdp-1 then (2 * m, (e - 1)%Z)
                  else (m, e) in
    let s := (m - 1) / (m + 1) in
    of_Z e * ln2 + 2 * s * horner (inv_odds 14 1) (s * s).

(** Is [y] an integer, an odd integer? (of a finite [y]) *)
Definition is_integer (y : float) : bool := of_Z (JS.truncate y) =? y.
Definition is_odd_integer (y : float) : bool :=
  is_integer y && Z.odd (JS.truncate y).

Fixpoint ipow (x : float) (k : nat) : float :=
  match k with
  | O => 1
  | S k' => x * ipow x k'
  end.

(** A positive finite base: small integer and half-integer exponents by
    multiplication and square root, the others through [exp] and [log]. *)
Definition pow_pos (x y : float) : float :=
  if is_integer (2 * y) && (Math.abs y <=? 32) then
    let r := ipow x (Z.to_nat (JS.truncate (Math.abs y)))
             * (if is_integer y then 1 else Math.sqrt x) in
    if y <? 0 then 1 / r else r
  else exp (y * log x).

(** [Number::exponentiate] of ECMAScript, case by case. *)
Definition pow (x y : float) : float :=
  if is_nan y then nan
  else if y =? 0 then 1
  else if is_nan x then nan
  else if is_infinity y then
    if Math.abs x =? 1 then nan
    else if xorb (1 <? Math.abs x) (y <? 0) then infinity else 0
  else if x =? infinity then (if 0 <? y then infinity else 0)
  else if x =? neg_infinity then
    if 0 <? y then (if is_odd_integer y then neg_infinity else infinity)
    else (if is_odd_integer y then -0 else 0)
  else if x =? 0 then
    if get_sign x && is_odd_integer y
    then (if 0 <? y then -0 else neg_infinity)
    else (if 0 <? y then 0 else infinity)
  else if x <? 0 then
    if is_integer y then
      let r := pow_pos (Math.abs x) y in
      if is_odd_integer y then - r else r
    else nan
  else pow_pos x y.

Definition impl : MathImpl :=
  {| Math_exp := exp; Math_log := log; Math_pow := pow |}.

End RefMath.

(** ** Inputs of the application (lines 12-53) *)

Definition silicon : MaterialProperties :=
  {| name := "Silicon"; bandgap := 1.12; Nc300 := 2.8e19; Nv300 := 1.04e19;
     temperatureCoeff := -2.73e-4 |}.

Definition germanium : MaterialProperties :=
  {| name := "Germanium"; bandgap := 0.66; Nc300 := 1.04e19; Nv300 := 6.0e18;
     temperatureCoeff := -3.9e-4 |}.

Definition GaAs : MaterialProperties :=
  {| name := "GaAs"; bandgap := 1.42; Nc300 := 4.7e17; Nv300 := 7.0e18;
     temperatureCoeff := -5.4e-4 |}.

Definition defaultMaterials : list MaterialProperties :=
  [silicon; germanium; GaAs].

Definition defaultKB : float := 8.617e-5.

Definition initialState : AppState :=
  {| materials := defaultMaterials;
     selectedMaterial := 0;
     temperature := 300;
     donorConc := 1e16;
     acceptorConc := 0;
     kB := 8.617e-5;
     results := {| ni := 0; n := 0; p := 0; fermiLevel := 0;
                   conductionType := "" |} |}.

(** The initial state with other operating conditions. *)
Definition withConditions (temperature donorConc acceptorConc kB : float)
  : AppState :=
  {| materials := defaultMaterials;
     selectedMaterial := 0;
     temperature := temperature;
     donorConc := donorConc;
     acceptorConc := acceptorConc;
     kB := kB;
     results := results initialState |}.

(** ** The formulas of the specification, in its words (section 4.1) *)

Module Spec.
Section Formulas.

Variable M : MathImpl.
Variables bandgapEv300 Nc300 Nv300 bandgapTemperatureCoefficient : float.

Definition Eg (T : float) : float :=
  bandgapEv300 + bandgapTemperatureCoefficient * (T - 300).

Definition ratio (T : float) : float := T / 300.

Definition Nc (T : float) : float := Nc300 * Math_pow M (ratio T) 1.5.

Definition Nv (T : float) : float := Nv300 * Math_pow M (ratio T) 1.5.

Definition ni (T kB : float) : float :=
  Math.sqrt (Nc T * Nv T) * Math_exp M (- Eg T / (2 * kB * T)).

End Formulas.
End Spec.

(** ** The rest of the component

    The state setters of React, the editor of the materials, the reset of
    the constants, the formatting helpers and the expressions of the
    rendering that compute something. *)

Definition setMaterials (st : AppState) (ms : list MaterialProperties)
  : AppState :=
  {| materials := ms;
     selectedMaterial := selectedMaterial st;
     temperature := temperature st;
     donorConc := donorConc st;
     acceptorConc := acceptorConc st;
     kB := kB st;
     results := results st |}.

Definition setSelectedMaterial (st : AppState) (index : nat) : AppState :=
  {| materials := materials st;
     selectedMaterial := index;
     temperature := temperature st;
     donorConc := donorConc st;
     acceptorConc := acceptorConc st;
     kB := kB st;
     results := results st |}.

Definition setTemperature (st : AppState) (v : float) : AppState :=
  {| materials := materials st;
     selectedMaterial := selectedMaterial st;
     temperature := v;
     donorConc := donorConc st;
     acceptorConc := acceptorConc st;
     kB := kB st;
     results := results st |}.

Definition setDonorConc (st : AppState) (v : float) : AppState :=
  {| materials := materials st;
     selectedMaterial := selectedMaterial st;
     temperature := temperature st;
     donorConc := v;
     acceptorConc := acceptorConc st;
     kB := kB st;
     results := results st |}.

Definition setAcceptorConc (st : AppState) (v : float) : AppState :=
  {| materials := materials st;
     selectedMaterial := selectedMaterial st;
     temperature := temperature st;
     donorConc := donorConc st;
     acceptorConc := v;
     kB := kB st;
     results := results st |}.

Definition setKB (st : AppState) (v : float) : AppState :=
  {| materials := materials st;
     selectedMaterial := selectedMaterial st;
     temperature := temperature st;
     donorConc := donorConc st;
     acceptorConc := acceptorConc st;
     kB := v;
     results := results st |}.

(** The keys [updateMaterialProperty] is called with (lines 234-264); the
    fifth key of the record, [name], holds a string and the value passed is
    a number. *)
Inductive MaterialKey : Type :=
| Key_bandgap
| Key_temperatureCoeff
| Key_Nc300
| Key_Nv300.

Definition getProperty (m : MaterialProperties) (property : MaterialKey)
  : float :=
  match property with
  | Key_bandgap => bandgap m
  | Key_temperatureCoeff => temperatureCoeff m
  | Key_Nc300 => Nc300 m
  | Key_Nv300 => Nv300 m
  end.

(** [{ ...m, [property]: value }] (line 136). *)
Definition withProperty (m : MaterialProperties) (property : MaterialKey)
    (value : float) : MaterialProperties :=
  match property with
  | Key_bandgap =>
      {| name := name m; bandgap := value; Nc300 := Nc300 m;
         Nv300 := Nv300 m; temperatureCoeff := temperatureCoeff m |}
  | Key_temperatureCoeff =>
      {| name := name m; bandgap := bandgap m; Nc300 := Nc300 m;
         Nv300 := Nv300 m; temperatureCoeff := value |}
  | Key_Nc300 =>
      {| name := name m; bandgap := bandgap m; Nc300 := value;
         Nv300 := Nv300 m; temperatureCoeff := temperatureCoeff m |}
  | Key_Nv300 =>
      {| name := name m; bandgap := bandgap m; Nc300 := Nc300 m;
         Nv300 := value; temperatureCoeff := temperatureCoeff m |}
  end.

(** [l[index] = x] on a copy of [l], for an index within the array. *)
Fixpoint assign {A : Type} (l : list A) (index : nat) (x : A) : list A :=
  match l, index with
  | [], _ => []
  | _ :: l', O => x :: l'
  | y :: l', S i => y :: assign l' i x
  end.

(** Lines 134-138.  The array is copied, the element at [index] replaced by
    a copy with the property set, and the state set to the new array.  With
    an index past the end JavaScript stores an object that has only the
    property, which is no [MaterialProperties]: the result is then outside
    [AppState], and [None] here.  The editor calls the function with the
    indices of [materials.map] only. *)
Definition updateMaterialProperty (st : AppState) (index : nat)
    (property : MaterialKey) (value : float) : option AppState :=
  match nth_error (materials st) index with
  | Some m =>
      let newMaterials :=
        assign (materials st) index (withProperty m property value) in
      Some (setMaterials st newMaterials)
  | None => None
  end.

(** Lines 140-143. *)
Definition resetToDefaults (st : AppState) : AppState :=
  setKB (setMaterials st defaultMaterials) defaultKB.

(** What the formatting helpers take from the engine: [Math.log10],
    [Number.prototype.toFixed] and the conversion of a number to a string
    in a template literal. *)
Record NumberImpl : Type := {
  Math_log10 : float -> float;
  Number_toFixed : float -> nat -> string;
  Number_toString : float -> string
}.

(** The number an integer of at most 53 bits stands for. *)
Definition integerNumber (k : Z) : float :=
  SF2Prim (binary_normalize prec emax k 0 false).

(** [Math.floor]: the largest integer not above [x]; [x] itself when it is
    an integer, a zero, an infinity or NaN. *)
Definition Math_floor (x : float) : float :=
  match Prim2SF x with
  | S754_finite s m e =>
      if (0 <=? e)%Z then x
      else
        let q := Z.shiftr (Zpos m) (- e) in
        if (Z.shiftl q (- e) =? Zpos m)%Z then x
        else if s then integerNumber (- (q + 1))
        else if (q =? 0)%Z then 0
        else integerNumber q
  | _ => x
  end.

(** Lines 145-147, over [JSON.stringify] on arrays of materials. *)
Definition isModified
    (JSON_stringify : list MaterialProperties -> string) (st : AppState)
  : bool :=
  negb (kB st =? defaultKB)
  || negb (String.eqb (JSON_stringify (materials st))
                      (JSON_stringify defaultMaterials)).

Section Formatting.

Variable F : NumberImpl.
Variable M : MathImpl.

(** Lines 123-128. *)
Definition formatScientific (value : float) : string :=
  if value =? 0 then "0"
  else
    let exponent := Math_floor (Math_log10 F (Math.abs value)) in
    let coefficient := value / Math_pow M 10 exponent in
    (Number_toFixed F coefficient 2 ++ " × 10^"
     ++ Number_toString F exponent)%string.

(** Lines 130-132. *)
Definition formatEnergy (value : float) : string :=
  (Number_toFixed F (value * 1000) 1 ++ " meV")%string.

(** The line "Net Doping" of the rendering (line 388). *)
Definition netDopingLine (st : AppState) : string :=
  formatScientific (donorConc st - acceptorConc st).

End Formatting.

(** ** A reference implementation of the formatting functions

    Used to run the helpers on inputs.  [toFixed] follows ECMAScript for
    numbers below [1e21] in magnitude: the closest multiple of [10^-f] to
    the exact value, the larger one at a tie.  [toString] is that of
    ECMAScript on the values the helpers pass to it, integers below
    [1e21] in magnitude, the infinities and NaN.  [log10] is exact at the
    powers of ten. *)

Module RefFormat.

Definition digits (k : Z) : string :=
  NilZero.string_of_uint (N.to_uint (Z.to_N k)).

Fixpoint zeros (k : nat) : string :=
  match k with
  | O => EmptyString
  | S k' => ("0" ++ zeros k')%string
  end.

(** The integer closest to [m * 2^e * 10^f], the larger one at a tie. *)
Definition scaled (m : positive) (e : Z) (f : nat) : Z :=
  let t := (Zpos m * 10 ^ Z.of_nat f)%Z in
  if (0 <=? e)%Z then Z.shiftl t e
  else ((2 * t + 2 ^ (- e)) / 2 ^ (- e + 1))%Z.

(** The digits of [k] with a point before the last [f] of them. *)
Definition pointed (k : Z) (f : nat) : string :=
  let d := digits k in
  let d := (zeros (S f - String.length d) ++ d)%string in
  match f with
  | O => d
  | _ =>
      let i := (String.length d - f)%nat in
      (substring 0 i d ++ "." ++ substring i f d)%string
  end.

Definition toFixed (x : float) (f : nat) : string :=
  match Prim2SF x with
  | S754_nan => "NaN"
  | S754_infinity s => if s then "-Infinity" else "Infinity"
  | S754_zero _ => pointed 0 f
  | S754_finite s m e =>
      ((if s then "-" else "") ++ pointed (scaled m e f) f)%string
  end.

Definition toString (x : float) : string :=
  match Prim2SF x with
  | S754_nan => "NaN"
  | S754_infinity s => if s then "-Infinity" else "Infinity"
  | S754_zero _ => "0"
  | S754_finite s m e =>
      ((if s then "-" else "") ++ digits (Z.abs (JS.truncate x)))%string
  end.

Definition ln10 : float := 0x1.26bb1bbb55516p+1.

Definition log10 (x : float) : float :=
  let y := RefMath.log x / ln10 in
  let k := integerNumber
             (JS.truncate (y + (if y <? 0 then -0.5 else 0.5))) in
  if RefMath.pow 10 k =? x then k else y.

Definition impl : NumberImpl :=
  {| Math_log10 := log10; Number_toFixed := toFixed;
     Number_toString := toString |}.

End RefFormat.

(** The line "Majority Carrier" of the rendering (line 478):
    [results.n > results.p ? 'Electrons' : 'Holes']. *)
Definition majorityCarrier (r : Results) : string :=
  if p r <? n r then "Electrons" else "Holes".

(** ** The interface as a transition system

    What the user can do (lines 205-528), each with the handler the
    rendering attaches to it.  An input delivers [Number(e.target.value)],
    any number; the material selector and the editor deliver the indices of
    [materials.map].  The editor's inputs exist only while it is shown and
    the reset button only while [isModified()]: the events below are a
    superset of those. *)
Inductive Event : Type :=
| ChangeKB (value : float)
| ChangeMaterialProperty (index : nat) (property : MaterialKey)
    (value : float)
| SelectMaterial (index : nat)
| ChangeTemperature (value : float)
| ChangeDonorConc (value : float)
| ChangeAcceptorConc (value : float)
| PresetIntrinsic
| PresetNType
| PresetPType
| PresetHeavyNType
| Reset.

(** The state the handler of an event sets; [None] when the rendering of
    [st] offers no such event. *)
Definition handle (ev : Event) (st : AppState) : option AppState :=
  match ev with
  | ChangeKB value => Some (setKB st value)
  | ChangeMaterialProperty index property value =>
      updateMaterialProperty st index property value
  | SelectMaterial index =>
      if (index <? List.length (materials st))%nat
      then Some (setSelectedMaterial st index)
      else None
  | ChangeTemperature value => Some (setTemperature st value)
  | ChangeDonorConc value => Some (setDonorConc st value)
  | ChangeAcceptorConc value => Some (setAcceptorConc st value)
  | PresetIntrinsic => Some (setAcceptorConc (setDonorConc st 0) 0)
  | PresetNType => Some (setAcceptorConc (setDonorConc st 1e16) 0)
  | PresetPType => Some (setAcceptorConc (setDonorConc st 0) 1e16)
  | PresetHeavyNType => Some (setAcceptorConc (setDonorConc st 1e18) 0)
  | Reset => Some (resetToDefaults st)
  end.

(** The effect of lines 55-57 runs [calculateConcentrations] after the
    first rendering and after every rendering in which one of its
    dependencies changed, that is after every event that changed an input.
    The states the user can see once the effect has run: *)
Inductive reachable (M : MathImpl) : AppState -> Prop :=
| reachable_mount (st : AppState) :
    calculateConcentrations M initialState = Completed st ->
    reachable M st
| reachable_event (st st' st'' : AppState) (ev : Event) :
    reachable M st ->
    handle ev st = Some st' ->
    calculateConcentrations M st' = Completed st'' ->
    reachable M st''.

(** The invariant of the interface: the three materials keep their names
    and the selection stays among them. *)
Definition wellFormed (st : AppState) : Prop :=
  map name (materials st) = map name defaultMaterials /\
  (selectedMaterial st < List.length (materials st))%nat.

(** A sequence of events, each followed by the effect; [None] when an
    event is not offered or the effect raises. *)
Fixpoint run (M : MathImpl) (evs : list Event) (st : AppState)
  : option AppState :=
  match evs with
  | [] => Some st
  | ev :: evs' =>
      match handle ev st with
      | Some st' =>
          match calculateConcentrations M st' with
          | Completed st'' => run M evs' st''
          | Thrown _ => None
          end
      | None => None
      end
  end.

(** The events of the constants editor. *)
Definition editsConstants (ev : Event) : bool :=
  match ev with
  | ChangeKB _ | ChangeMaterialProperty _ _ _ | Reset => true
  | _ => false
  end.

(** ** States and events of the examples *)

(** One edit after another, [None] when either is past the end. *)
Definition editTwice (st : AppState) (i : nat) (k : MaterialKey) (v : float)
    (j : nat) (k' : MaterialKey) (v' : float) : option AppState :=
  match updateMaterialProperty st i k v with
  | Some st1 => updateMaterialProperty st1 j k' v'
  | None => None
  end.

(** The events that change the doping only. *)
Definition changesDoping (ev : Event) : bool :=
  match ev with
  | ChangeDonorConc _ | ChangeAcceptorConc _
  | PresetIntrinsic | PresetNType | PresetPType | PresetHeavyNType => true
  | _ => false
  end.

(** The first state of the interface, with the reference engine. *)
Definition mounted : AppState :=
  setResults initialState
    (solve RefMath.impl silicon 300 1e16 0 defaultKB).

(** The state after an edit of germanium, which is not selected. *)
Definition germaniumEdited : AppState :=
  setMaterials mounted
    (assign (materials mounted) 1 (withProperty germanium Key_bandgap 0.7)).

(** The state after the preset "p-type (1e16)". *)
Definition presetPType : AppState :=
  setResults (setAcceptorConc (setDonorConc mounted 0) 1e16)
    (solve RefMath.impl silicon 300 0 1e16 defaultKB).

(** The state after the preset "Intrinsic". *)
Definition presetIntrinsic : AppState :=
  setResults (setAcceptorConc (setDonorConc mounted 0) 0)
    (solve RefMath.impl silicon 300 0 0 defaultKB).


(** Two edits in the constants editor. *)
Definition someEdits : list Event :=
  [ChangeKB 1e-4; ChangeMaterialProperty 0 Key_bandgap 1.2].

(** The state after [someEdits] and a reset, step by step. *)
Definition editedAndReset : AppState :=
  let s1 := setResults (setKB mounted 1e-4)
              (solve RefMath.impl silicon 300 1e16 0 1e-4) in
  let edited := withProperty silicon Key_bandgap 1.2 in
  let s2 := setResults (setMaterials s1 (assign (materials s1) 0 edited))
              (solve RefMath.impl edited 300 1e16 0 1e-4) in
  setResults (resetToDefaults s2)
    (solve RefMath.impl silicon 300 1e16 0 defaultKB).

(** ** Predicates of the claims *)

(** The inputs the specification calls non-physical. *)
Definition nonPhysical (st : AppState) : Prop :=
  (temperature st <=? 0) = true \/ (kB st <=? 0) = true \/
  (donorConc st <? 0) = true \/ (acceptorConc st <? 0) = true.

(** The real number a binary64 value stands for (0 for NaN and the
    infinities, which [finite] tells apart). *)
Definition SF2R (x : spec_float) : R :=
  match x with
  | S754_finite s m e =>
      ((if s then -1 else 1) * IZR (Zpos m) * powerRZ 2 e)%R
  | _ => 0%R
  end.

Definition F2R (x : float) : R := SF2R (Prim2SF x).

(** Normal numbers: neither zero, subnormal, infinite nor NaN. *)
Definition normal (x : float) : bool :=
  match classify x with
  | PNormal | NNormal => true
  | _ => false
  end.

(** Numbers: neither infinite nor NaN ([Number.isFinite]). *)
Definition finite (x : float) : bool :=
  match classify x with
  | NaN | PInf | NInf => false
  | _ => true
  end.

(** The mass-action law on a result: the three concentrations are numbers
    and the product of [n] and [p] is the square of [ni] to within the
    relative tolerance [1e-9]. *)
Definition massAction (r : Results) : Prop :=
  finite (ni r) = true /\ finite (n r) = true /\ finite (p r) = true /\
  (Rabs (F2R (n r) * F2R (p r) - F2R (ni r) * F2R (ni r))
   <= 1e-9 * (F2R (ni r) * F2R (ni r)))%R.

(** A number other than zero (and not NaN). *)
Definition nonzero (x : float) : bool := (0 <? x) || (x <? 0).

(** Equality of numbers as [===] has it (the two zeros are equal), with NaN
    equal to itself. *)
Definition sameNumber (x y : float) : Prop := x = y \/ (x =? y) = true.

Definition mirrorType (t : string) : string :=
  if String.eqb t "n-type" then "p-type"
  else if String.eqb t "p-type" then "n-type"
  else t.

(** [r'] is [r] with electrons and holes exchanged. *)
Definition mirrored (r r' : Results) : Prop :=
  ni r' = ni r /\ n r' = p r /\ p r' = n r /\
  sameNumber (fermiLevel r') (- fermiLevel r) /\
  conductionType r' = mirrorType (conductionType r).

(** ** Notions of the rounding analysis *)

(** [y] lies in the unit interval that starts at [m], at the place [l]. *)
Definition located (y : R) (m : Z) (l : location) : Prop :=
  match l with
  | loc_Exact => y = IZR m
  | loc_Inexact Lt => (IZR m < y < IZR m + / 2)%R
  | loc_Inexact Eq => (y = IZR m + / 2)%R
  | loc_Inexact Gt => (IZR m + / 2 < y < IZR m + 1)%R
  end.

Definition represents (y : R) (mrs : shr_record) : Prop :=
  (0 <= shr_m mrs)%Z /\ located y (shr_m mrs) (loc_of_shr_record mrs).

Definition sign_of (s : bool) : R := if s then (-1)%R else 1%R.

(** The relative error of one rounding to a normal number, with room to
    spare: three units in the 53rd place. *)
Definition eps : R := (3 / 9007199254740992)%R.

(** ** Basic facts about the branch *)

Section Branch.

Variable M : MathImpl.

Lemma ni_carriers (ni0 net kB T : float) :
  ni (carriers M ni0 net kB T) = ni0.
Proof.
  unfold carriers.
  destruct (Math.abs net <? ni0); [reflexivity|].
  destruct (0 <? net);
    [destruct (shiftTest net ni0) | destruct (shiftTest (Math.abs net) ni0)];
    reflexivity.
Qed.

Lemma carriers_intrinsic (ni0 net kB T : float) :
  (Math.abs net <? ni0) = true ->
  carriers M ni0 net kB T =
    {| ni := ni0; n := ni0; p := ni0; fermiLevel := 0;
       conductionType := "Intrinsic" |}.
Proof. intros H. unfold carriers. now rewrite H. Qed.

Lemma calculateConcentrations_completed (st : AppState)
    (material : MaterialProperties) :
  nth_error (materials st) (selectedMaterial st) = Some material ->
  calculateConcentrations M st =
    Completed
      (setResults st
         (solve M material (temperature st) (donorConc st)
                (acceptorConc st) (kB st))).
Proof. intros H. unfold calculateConcentrations. now rewrite H. Qed.

End Branch.

(** ** Rounding: the error of a multiplication and of a division

    The operations of binary64 are specified by [SpecFloat]: the exact
    result is located between two mantissas, shifted to the target
    exponent and rounded to nearest.  What follows bounds the distance
    from the rounded to the exact result. *)

Section RoundingError.

Local Open Scope R_scope.

Lemma Rabs_le_bounds (a b : R) : Rabs a <= b -> - b <= a <= b.
Proof. unfold Rabs. destruct (Rcase_abs a); lra. Qed.

Lemma IZR_xO (p : positive) : IZR (Zpos p~0) = 2 * IZR (Zpos p).
Proof. rewrite Pos2Z.inj_xO, mult_IZR. reflexivity. Qed.

Lemma IZR_xI (p : positive) : IZR (Zpos p~1) = 2 * IZR (Zpos p) + 1.
Proof. rewrite Pos2Z.inj_xI, plus_IZR, mult_IZR. reflexivity. Qed.

Lemma shr_1_represents (y : R) (mrs : shr_record) :
  represents y mrs -> represents (y / 2) (shr_1 mrs).
Proof.
  destruct mrs as [m r s]. unfold represents. cbn [shr_m].
  intros [Hm H].
  destruct m as [|q|q]; [| |lia].
  - destruct r, s; cbn [shr_1 orb shr_m loc_of_shr_record located] in *;
      split; try lia; lra.
  - destruct q as [q|q|]; destruct r, s;
      cbn [shr_1 orb shr_m loc_of_shr_record located] in *;
      try rewrite (IZR_xO q) in H; try rewrite (IZR_xI q) in H;
      split; try lia; lra.
Qed.

Lemma iter_pos_shr_1_represents (k : positive) :
  forall (y : R) (mrs : shr_record),
    represents y mrs ->
    represents (y * powerRZ 2 (Zneg k)) (SpecFloat.iter_pos shr_1 k mrs).
Proof.
  assert (H2 : 2 <> 0) by lra.
  induction k as [k IH|k IH|]; intros y mrs H; cbn [SpecFloat.iter_pos].
  - apply shr_1_represents in H. apply IH in H. apply IH in H.
    replace (y * powerRZ 2 (Z.neg k~1))
      with (y / 2 * powerRZ 2 (Z.neg k) * powerRZ 2 (Z.neg k)); [exact H|].
    replace (Z.neg k~1) with (Z.neg k + Z.neg k + (-1))%Z by lia.
    rewrite !powerRZ_add by exact H2.
    change (powerRZ 2 (-1)) with (/ (2 * 1)). field.
  - apply IH in H. apply IH in H.
    replace (y * powerRZ 2 (Z.neg k~0))
      with (y * powerRZ 2 (Z.neg k) * powerRZ 2 (Z.neg k)); [exact H|].
    replace (Z.neg k~0) with (Z.neg k + Z.neg k)%Z by lia.
    rewrite !powerRZ_add by exact H2. ring.
  - apply shr_1_represents in H.
    change (powerRZ 2 (Z.neg 1)) with (/ (2 * 1)).
    replace (y * / (2 * 1)) with (y / 2) by field. exact H.
Qed.

Lemma shr_represents (x : R) (mrs mrs' : shr_record) (e e' k : Z) :
  represents (x * powerRZ 2 (- e)) mrs ->
  shr mrs e k = (mrs', e') ->
  represents (x * powerRZ 2 (- e')) mrs' /\ (e <= e')%Z.
Proof.
  intros H Hs. unfold shr in Hs.
  destruct k as [|k|k]; try (injection Hs as <- <-; split; [exact H | lia]).
  injection Hs as <- <-. split; [|lia].
  apply (iter_pos_shr_1_represents k) in H.
  replace (x * powerRZ 2 (- (e + Z.pos k)))
    with (x * powerRZ 2 (- e) * powerRZ 2 (Z.neg k)); [exact H|].
  replace (- (e + Z.pos k))%Z with (- e + Z.neg k)%Z by lia.
  rewrite powerRZ_add by lra. ring.
Qed.

Lemma represents_of_loc (y : R) (m : Z) (l : location) :
  (0 <= m)%Z -> located y m l -> represents y (shr_record_of_loc m l).
Proof.
  intros Hm H. unfold represents.
  destruct l as [|[| |]]; cbn; split; assumption.
Qed.

Lemma shr_fexp_represents (prec emax : Z) (x : R) (m e : Z) (l : location)
    (mrs' : shr_record) (e' : Z) :
  (0 <= m)%Z ->
  located (x * powerRZ 2 (- e)) m l ->
  shr_fexp prec emax m e l = (mrs', e') ->
  represents (x * powerRZ 2 (- e')) mrs' /\ (e <= e')%Z.
Proof.
  intros Hm H Hs. unfold shr_fexp in Hs.
  eapply shr_represents; [|exact Hs].
  now apply represents_of_loc.
Qed.

Lemma round_nearest_even_close (y : R) (m : Z) (l : location) :
  (0 <= m)%Z -> located y m l ->
  (0 <= round_nearest_even m l)%Z /\
  Rabs (IZR (round_nearest_even m l) - y) <= / 2.
Proof.
  intros Hm H.
  destruct l as [|[| |]]; cbn [round_nearest_even located] in *.
  - split; [lia|]. subst y. rewrite Rminus_diag, Rabs_R0. lra.
  - destruct (Z.even m); (split; [lia|]); rewrite ?plus_IZR; subst y;
      apply Rabs_le; lra.
  - split; [lia|]. apply Rabs_le; lra.
  - split; [lia|]. rewrite plus_IZR. apply Rabs_le; lra.
Qed.

Lemma represents_floor (y : R) (mrs : shr_record) :
  represents y mrs -> IZR (shr_m mrs) <= y < IZR (shr_m mrs) + 1.
Proof.
  destruct mrs as [m r s]. unfold represents. cbn [shr_m].
  intros [_ H]. destruct r, s; cbn in H; lra.
Qed.

(** The heart of every operation: the rounded mantissa is within three
    halves of a unit in the last place of the exact value. *)
Lemma binary_round_aux_close (prec emax : Z) (x : R) (sx : bool) (mx ex : Z)
    (lx : location) (s : bool) (m : positive) (e : Z) :
  (0 <= mx)%Z ->
  located (x * powerRZ 2 (- ex)) mx lx ->
  binary_round_aux prec emax sx mx ex lx = S754_finite s m e ->
  s = sx /\ Rabs (IZR (Zpos m) - x * powerRZ 2 (- e)) <= 3 / 2.
Proof.
  intros Hm H Hr. unfold binary_round_aux in Hr.
  destruct (shr_fexp prec emax mx ex lx) as [mrs' e'] eqn:H1.
  destruct (shr_fexp_represents _ _ _ _ _ _ _ _ Hm H H1) as [[Hm' Hl'] _].
  destruct (round_nearest_even_close _ _ _ Hm' Hl') as [Hm1 Hc].
  set (m1 := round_nearest_even (shr_m mrs') (loc_of_shr_record mrs')) in *.
  destruct (shr_fexp prec emax m1 e' loc_Exact) as [mrs'' e''] eqn:H2.
  assert (Hx : located (IZR m1 * powerRZ 2 e' * powerRZ 2 (- e')) m1 loc_Exact).
  { cbn. rewrite Rmult_assoc, <- powerRZ_add by lra.
    replace (e' + - e')%Z with 0%Z by lia. cbn. ring. }
  destruct (shr_fexp_represents _ _ _ _ _ _ _ _ Hm1 Hx H2) as [Hrep Hle].
  apply represents_floor in Hrep.
  destruct (shr_m mrs'') as [|m''|m''] eqn:Hm''; try discriminate Hr.
  destruct (e'' <=? emax - prec)%Z; try discriminate Hr.
  injection Hr as <- <- <-. split; [reflexivity|].
  set (t := powerRZ 2 (e' - e'')).
  assert (Ht : 0 < t <= 1).
  { unfold t. split; [apply powerRZ_lt; lra|].
    replace (e' - e'')%Z with (- (e'' - e'))%Z by lia.
    rewrite <- (Z2Nat.id (e'' - e')) by lia.
    rewrite powerRZ_neg' , <- pow_powerRZ.
    rewrite <- Rinv_1. apply Rinv_le_contravar; [lra|].
    apply pow_R1_Rle. lra. }
  assert (E1 : IZR m1 * powerRZ 2 e' * powerRZ 2 (- e'') = IZR m1 * t).
  { unfold t. rewrite Rmult_assoc, <- powerRZ_add by lra. reflexivity. }
  assert (E2 : x * powerRZ 2 (- e'') = x * powerRZ 2 (- e') * t).
  { unfold t. rewrite Rmult_assoc, <- powerRZ_add by lra.
    f_equal. f_equal. lia. }
  rewrite E1 in Hrep. rewrite E2.
  set (y := x * powerRZ 2 (- e')) in *.
  apply Rabs_le_bounds in Hc. apply Rabs_le. nra.
Qed.

Lemma SF2R_finite (s : bool) (m : positive) (e : Z) :
  SF2R (S754_finite s m e) = sign_of s * (IZR (Zpos m) * powerRZ 2 e).
Proof. unfold SF2R, sign_of. ring. Qed.

Lemma Rabs_sign_of (s : bool) (x : R) : Rabs (sign_of s * x) = Rabs x.
Proof.
  destruct s; unfold sign_of.
  - replace (-1 * x) with (- x) by ring. apply Rabs_Ropp.
  - now rewrite Rmult_1_l.
Qed.

(** A finite result of rounding [x >= 0] with sign [sx] is within three
    halves of its unit in the last place of the signed exact value. *)
Lemma binary_round_aux_error (prec emax : Z) (x : R) (sx : bool) (mx ex : Z)
    (lx : location) (s : bool) (m : positive) (e : Z) :
  (0 <= mx)%Z ->
  located (x * powerRZ 2 (- ex)) mx lx ->
  binary_round_aux prec emax sx mx ex lx = S754_finite s m e ->
  Rabs (SF2R (S754_finite s m e) - sign_of sx * x) <= 3 / 2 * powerRZ 2 e.
Proof.
  intros Hm H Hr.
  destruct (binary_round_aux_close _ _ _ _ _ _ _ _ _ _ Hm H Hr) as [-> Hc].
  rewrite SF2R_finite, <- Rmult_minus_distr_l, Rabs_sign_of.
  assert (Hp : 0 < powerRZ 2 e) by (apply powerRZ_lt; lra).
  replace (IZR (Z.pos m) * powerRZ 2 e - x)
    with ((IZR (Z.pos m) - x * powerRZ 2 (- e)) * powerRZ 2 e).
  - rewrite Rabs_mult, (Rabs_pos_eq (powerRZ 2 e)) by lra.
    apply Rmult_le_compat_r; lra.
  - rewrite Rmult_minus_distr_r, Rmult_assoc, <- powerRZ_add by lra.
    replace (- e + e)%Z with 0%Z by lia. cbn. ring.
Qed.

(** ** Multiplication *)

Lemma SFmul_error (prec emax : Z) (x y : spec_float) (s : bool)
    (m : positive) (e : Z) :
  SFmul prec emax x y = S754_finite s m e ->
  Rabs (SF2R (S754_finite s m e) - SF2R x * SF2R y) <= 3 / 2 * powerRZ 2 e.
Proof.
  destruct x as [sx|sx| |sx mx ex], y as [sy|sy| |sy my ey];
    cbn [SFmul]; try discriminate.
  intros Hr.
  apply (binary_round_aux_error _ _
           (IZR (Zpos mx) * IZR (Zpos my) * powerRZ 2 (ex + ey))) in Hr.
  - rewrite !SF2R_finite in *.
    replace (sign_of sx * (IZR (Z.pos mx) * powerRZ 2 ex)
             * (sign_of sy * (IZR (Z.pos my) * powerRZ 2 ey)))
      with (sign_of (xorb sx sy)
            * (IZR (Z.pos mx) * IZR (Z.pos my) * powerRZ 2 (ex + ey)));
      [exact Hr|].
    rewrite powerRZ_add by lra.
    destruct sx, sy; unfold sign_of; cbn [xorb]; ring.
  - lia.
  - cbn [located]. rewrite Pos2Z.inj_mul, mult_IZR.
    rewrite Rmult_assoc, <- powerRZ_add by lra.
    replace (ex + ey + - (ex + ey))%Z with 0%Z by lia. cbn. ring.
Qed.

(** ** Division *)

Lemma new_location_located (q r d : Z) :
  (0 <= r < d)%Z ->
  located (IZR q + IZR r / IZR d) q (new_location d r).
Proof.
  intros Hr.
  assert (Hd : 0 < IZR d) by (apply IZR_lt; lia).
  assert (Hr0 : 0 <= IZR r) by (apply IZR_le; lia).
  assert (Hrd : IZR r < IZR d) by (apply IZR_lt; lia).
  set (rho := IZR r / IZR d).
  assert (E : IZR r = rho * IZR d) by (unfold rho; field; lra).
  unfold new_location, new_location_even, new_location_odd.
  destruct (Z.even d) eqn:Hev; destruct (Z.eqb_spec r 0) as [->|Hn].
  - cbn. unfold rho. rewrite Rdiv_0_l. ring.
  - assert (Hr1 : 0 < IZR r) by (apply IZR_lt; lia).
    destruct (Z.compare_spec (2 * r) d) as [H|H|H]; cbn [located].
    + apply (f_equal IZR) in H. rewrite mult_IZR in H. nra.
    + apply IZR_lt in H. rewrite mult_IZR in H. nra.
    + apply IZR_lt in H. rewrite mult_IZR in H. nra.
  - cbn. unfold rho. rewrite Rdiv_0_l. ring.
  - assert (Hr1 : 0 < IZR r) by (apply IZR_lt; lia).
    assert (Hodd : (2 * r <> d)%Z).
    { intros <-. rewrite Z.even_mul in Hev. discriminate Hev. }
    destruct (Z.compare_spec (2 * r + 1) d) as [H|H|H]; cbn [located].
    + apply (f_equal IZR) in H. rewrite plus_IZR, mult_IZR in H. nra.
    + apply IZR_lt in H. rewrite plus_IZR, mult_IZR in H. nra.
    + assert (H' : (d < 2 * r)%Z) by lia.
      apply IZR_lt in H'. rewrite mult_IZR in H'. nra.
Qed.

Lemma SFdiv_core_located (prec emax : Z) (m1 m2 : positive) (e1 e2 : Z)
    (q e' : Z) (l : location) :
  SFdiv_core_binary prec emax (Zpos m1) e1 (Zpos m2) e2 = (q, e', l) ->
  (0 <= q)%Z /\
  located (IZR (Zpos m1) * powerRZ 2 e1 / (IZR (Zpos m2) * powerRZ 2 e2)
           * powerRZ 2 (- e')) q l.
Proof.
  unfold SFdiv_core_binary.
  set (e0 := Z.min _ (e1 - e2)).
  set (s := (e1 - e2 - e0)%Z).
  assert (Hs : (0 <= s)%Z) by (unfold s, e0; lia).
  set (m' := match s with Z.pos _ => Z.shiftl (Z.pos m1) s
                     | Z0 => Z.pos m1 | Z.neg _ => 0%Z end).
  assert (Hm' : m' = (Zpos m1 * 2 ^ s)%Z).
  { unfold m'. destruct s as [|k|k]; [lia| |lia].
    apply Z.shiftl_mul_pow2. lia. }
  destruct (Z.div_eucl m' (Z.pos m2)) as [q0 r0] eqn:Hdiv.
  intros H. injection H as <- <- <-.
  pose proof (Z_div_mod m' (Z.pos m2) ltac:(lia)) as Hspec.
  rewrite Hdiv in Hspec. destruct Hspec as [Heq Hr].
  assert (Hq : (0 <= q0)%Z).
  { assert (0 <= m')%Z by (rewrite Hm'; apply Z.mul_nonneg_nonneg; lia).
    nia. }
  split; [exact Hq|].
  assert (Hpos2 : 0 < IZR (Z.pos m2)) by (apply IZR_lt; lia).
  assert (Hp2 : 0 < powerRZ 2 e2) by (apply powerRZ_lt; lra).
  replace (IZR (Z.pos m1) * powerRZ 2 e1 / (IZR (Z.pos m2) * powerRZ 2 e2)
           * powerRZ 2 (- e0))
    with (IZR q0 + IZR r0 / IZR (Z.pos m2)).
  - apply new_location_located. exact Hr.
  - assert (Em : IZR m' = IZR (Z.pos m1) * powerRZ 2 s).
    { rewrite Hm', mult_IZR. f_equal.
      rewrite <- (Z2Nat.id s) at 1 2 by exact Hs.
      rewrite <- pow_powerRZ. symmetry. apply pow_IZR. }
    assert (Es : powerRZ 2 e1 = powerRZ 2 s * powerRZ 2 e2 * powerRZ 2 e0).
    { rewrite <- !powerRZ_add by lra. f_equal. unfold s. lia. }
    assert (E0 : powerRZ 2 e0 * powerRZ 2 (- e0) = 1).
    { rewrite <- powerRZ_add by lra.
      replace (e0 + - e0)%Z with 0%Z by lia. reflexivity. }
    apply (f_equal IZR) in Heq. rewrite plus_IZR, mult_IZR in Heq.
    rewrite Es.
    transitivity (IZR m' / IZR (Z.pos m2)).
    + rewrite Heq. field. lra.
    + rewrite Em.
      transitivity (IZR (Z.pos m1) * powerRZ 2 s / IZR (Z.pos m2)
                    * (powerRZ 2 e0 * powerRZ 2 (- e0))).
      * rewrite E0. ring.
      * field. lra.
Qed.

Lemma SFdiv_error (prec emax : Z) (x y : spec_float) (s : bool)
    (m : positive) (e : Z) :
  SFdiv prec emax x y = S754_finite s m e ->
  SF2R y <> 0 /\
  Rabs (SF2R (S754_finite s m e) - SF2R x / SF2R y) <= 3 / 2 * powerRZ 2 e.
Proof.
  destruct x as [sx|sx| |sx mx ex], y as [sy|sy| |sy my ey];
    cbn [SFdiv]; try discriminate.
  destruct (SFdiv_core_binary prec emax (Z.pos mx) ex (Z.pos my) ey)
    as [[mz ez] lz] eqn:Hcore.
  intros Hr.
  destruct (SFdiv_core_located _ _ _ _ _ _ _ _ _ Hcore) as [Hq Hl].
  assert (Hmy : 0 < IZR (Z.pos my)) by (apply IZR_lt; lia).
  assert (Hpy : 0 < powerRZ 2 ey) by (apply powerRZ_lt; lra).
  assert (Hpos : 0 < IZR (Z.pos my) * powerRZ 2 ey)
    by (apply Rmult_lt_0_compat; assumption).
  assert (Hy : SF2R (S754_finite sy my ey) <> 0).
  { rewrite SF2R_finite. destruct sy; unfold sign_of; lra. }
  split; [exact Hy|].
  apply (binary_round_aux_error _ _ _ _ _ _ _ _ _ _ Hq Hl) in Hr.
  replace (SF2R (S754_finite sx mx ex) / SF2R (S754_finite sy my ey))
    with (sign_of (xorb sx sy)
          * (IZR (Z.pos mx) * powerRZ 2 ex / (IZR (Z.pos my) * powerRZ 2 ey)));
    [exact Hr|].
  rewrite !SF2R_finite.
  destruct sx, sy; unfold sign_of; cbn [xorb]; field; repeat split; lra.
Qed.

(** ** From [spec_float] to [float] *)

Lemma digits2_pos_lower (m : positive) :
  (2 ^ (Zpos (digits2_pos m) - 1) <= Zpos m)%Z.
Proof.
  induction m as [m IH|m IH|]; cbn [digits2_pos].
  - rewrite Pos2Z.inj_succ.
    replace (Z.succ (Z.pos (digits2_pos m)) - 1)%Z
      with (Z.succ (Z.pos (digits2_pos m) - 1))%Z by lia.
    rewrite Z.pow_succ_r by lia. lia.
  - rewrite Pos2Z.inj_succ.
    replace (Z.succ (Z.pos (digits2_pos m)) - 1)%Z
      with (Z.succ (Z.pos (digits2_pos m) - 1))%Z by lia.
    rewrite Z.pow_succ_r by lia. lia.
  - cbn. lia.
Qed.

Lemma normal_inv (x : float) :
  normal x = true ->
  exists s m e, Prim2SF x = S754_finite s m e /\ (2 ^ 52 <= Zpos m)%Z.
Proof.
  unfold normal. rewrite classify_spec. unfold SF64classify, SFclassify.
  destruct (Prim2SF x) as [s|s| |s m e];
    try discriminate; try (destruct s; discriminate).
  pose proof (digits2_pos_lower m) as Hd.
  destruct (Z.eqb_spec (Z.pos (digits2_pos m)) prec) as [E|E].
  - intros _. exists s, m, e. split; [reflexivity|].
    rewrite E in Hd. exact Hd.
  - destruct s; discriminate.
Qed.

Lemma normal_finite (x : float) : normal x = true -> finite x = true.
Proof. unfold normal, finite. destruct (classify x); easy. Qed.

Lemma finite_inv (x : float) :
  finite x = true ->
  match Prim2SF x with
  | S754_nan | S754_infinity _ => False
  | _ => True
  end.
Proof.
  unfold finite. rewrite classify_spec. unfold SF64classify, SFclassify.
  destruct (Prim2SF x) as [s|s| |s m e]; try (destruct s); easy.
Qed.

Lemma finite_of_spec (x : float) :
  match Prim2SF x with
  | S754_nan | S754_infinity _ => False
  | _ => True
  end -> finite x = true.
Proof.
  unfold finite. rewrite classify_spec. unfold SF64classify, SFclassify.
  destruct (Prim2SF x) as [s|s| |s m e]; try (destruct s); try easy.
  - destruct (Z.pos (digits2_pos m) =? prec)%Z; reflexivity.
  - destruct (Z.pos (digits2_pos m) =? prec)%Z; reflexivity.
Qed.

Lemma ulp_relative (s : bool) (m : positive) (e : Z) :
  (2 ^ 52 <= Zpos m)%Z ->
  3 / 2 * powerRZ 2 e <= eps * Rabs (SF2R (S754_finite s m e)).
Proof.
  intros H. rewrite SF2R_finite, Rabs_sign_of.
  assert (Hp : 0 < powerRZ 2 e) by (apply powerRZ_lt; lra).
  apply IZR_le in H. change (IZR (2 ^ 52)) with 4503599627370496 in H.
  rewrite Rabs_pos_eq by nra.
  unfold eps. nra.
Qed.

Lemma mul_error (a b : float) :
  normal (a * b) = true ->
  Rabs (F2R (a * b) - F2R a * F2R b) <= eps * Rabs (F2R (a * b)).
Proof.
  intros H. destruct (normal_inv _ H) as (s & m & e & E & Hm).
  unfold F2R. rewrite E. rewrite mul_spec in E.
  apply SFmul_error in E. apply ulp_relative with (s := s) (e := e) in Hm.
  lra.
Qed.

Lemma div_error (a b : float) :
  normal (a / b) = true ->
  F2R b <> 0 /\
  Rabs (F2R (a / b) - F2R a / F2R b) <= eps * Rabs (F2R (a / b)).
Proof.
  intros H. destruct (normal_inv _ H) as (s & m & e & E & Hm).
  unfold F2R. rewrite E. rewrite div_spec in E.
  apply SFdiv_error in E. apply ulp_relative with (s := s) (e := e) in Hm.
  split; [tauto|lra].
Qed.

Lemma mul_normal_finite (a b : float) :
  normal (a * b) = true -> finite a = true /\ finite b = true.
Proof.
  intros H. destruct (normal_inv _ H) as (s & m & e & E & _).
  rewrite mul_spec in E.
  split; apply finite_of_spec;
    destruct (Prim2SF a) as [sa|sa| |sa ma ea],
             (Prim2SF b) as [sb|sb| |sb mb eb]; cbn in E; easy.
Qed.

(** The mass-action product: [b] is the rounded quotient of the rounded
    square of [c] by [a]. *)
Lemma quotient_product (c a : float) :
  normal (c * c) = true ->
  normal (c * c / a) = true ->
  Rabs (F2R a * F2R (c * c / a) - F2R c * F2R c)
    <= 1e-9 * (F2R c * F2R c).
Proof.
  intros Hq Hb.
  pose proof (mul_error _ _ Hq) as H1.
  destruct (div_error _ _ Hb) as [Ha H2].
  set (A := F2R a) in *. set (B := F2R (c * c / a)) in *.
  set (Q := F2R (c * c)) in *. set (C := F2R c) in *.
  assert (H3 : Rabs (A * B - Q) <= eps * Rabs (A * B)).
  { replace (A * B - Q) with (A * (B - Q / A)) by (field; exact Ha).
    rewrite !Rabs_mult.
    replace (eps * (Rabs A * Rabs B)) with (Rabs A * (eps * Rabs B)) by ring.
    apply Rmult_le_compat_l; [apply Rabs_pos | exact H2]. }
  assert (HS : 0 <= C * C) by nra.
  set (X := A * B) in *. set (S := C * C) in *.
  clearbody X S Q. clear - H1 H3 HS.
  unfold eps in *. unfold Rabs in *.
  repeat destruct Rcase_abs; lra.
Qed.

End RoundingError.

(** ** Signs: opposite, absolute value, comparison with zero *)

Section Signs.

Lemma binary_round_aux_opp (sx : bool) (mx ex : Z) (lx : location) :
  binary_round_aux prec emax (negb sx) mx ex lx =
  SFopp (binary_round_aux prec emax sx mx ex lx).
Proof.
  unfold binary_round_aux.
  destruct (shr_fexp prec emax mx ex lx) as [mrs' e'].
  destruct (shr_fexp prec emax _ e' loc_Exact) as [mrs'' e''].
  destruct (shr_m mrs''); [reflexivity| |reflexivity].
  destruct (e'' <=? emax - prec)%Z; reflexivity.
Qed.

Lemma SFopp_involutive (x : spec_float) : SFopp (SFopp x) = x.
Proof. destruct x as [s|s| |s m e]; cbn; now rewrite ?negb_involutive. Qed.

Lemma binary_normalize_opp (m e : Z) :
  m <> 0%Z ->
  binary_normalize prec emax (- m) e false =
  SFopp (binary_normalize prec emax m e false).
Proof.
  intros Hm. destruct m as [|q|q]; [easy| |]; cbn [Z.opp binary_normalize];
    unfold binary_round;
    destruct (shl_align q e _) as [mz ez].
  - apply (binary_round_aux_opp false).
  - change true with (negb false).
    now rewrite binary_round_aux_opp, SFopp_involutive.
Qed.

Lemma opp_involutive (x : float) : - - x = x.
Proof.
  apply Prim2SF_inj. rewrite !opp_spec. apply SFopp_involutive.
Qed.

(** [a - d] is the opposite of [d - a], unless both are zero. *)
Lemma SFsub_antisym (x y : spec_float) :
  match SFsub prec emax x y with
  | S754_zero _ => True
  | r => SFsub prec emax y x = SFopp r
  end.
Proof.
  destruct x as [sx|sx| |sx mx ex], y as [sy|sy| |sy my ey];
    try (destruct sx, sy; exact I || reflexivity);
    try (destruct sx; exact I || reflexivity);
    try (destruct sy; exact I || reflexivity);
    try reflexivity.
  cbn [SFsub].
  rewrite (Z.min_comm ey ex).
  set (ez := Z.min ex ey).
  set (X := cond_Zopp sx (Z.pos (fst (shl_align mx ex ez)))).
  set (Y := cond_Zopp sy (Z.pos (fst (shl_align my ey ez)))).
  destruct (Z.eq_dec (X - Y) 0) as [E|E].
  - rewrite E. exact I.
  - replace (Y - X)%Z with (- (X - Y))%Z by lia.
    rewrite (binary_normalize_opp _ _ E).
    now destruct (binary_normalize prec emax (X - Y) ez false).
Qed.

Lemma Prim2SF_zero : Prim2SF 0 = S754_zero false.
Proof. reflexivity. Qed.

Lemma nonzero_inv (x : float) :
  nonzero x = true ->
  match Prim2SF x with
  | S754_zero _ | S754_nan => False
  | _ => True
  end.
Proof.
  unfold nonzero. rewrite !ltb_spec, Prim2SF_zero.
  destruct (Prim2SF x) as [s|s| |s m e]; cbn; easy.
Qed.

Lemma sub_antisym (a d : float) :
  nonzero (d - a) = true -> a - d = - (d - a).
Proof.
  intros H. apply nonzero_inv in H.
  apply Prim2SF_inj. rewrite opp_spec, !sub_spec in *.
  pose proof (SFsub_antisym (Prim2SF d) (Prim2SF a)) as Hs.
  unfold SF64sub in *.
  destruct (SFsub prec emax (Prim2SF d) (Prim2SF a)); easy.
Qed.

Lemma abs_opp (x : float) : Math.abs (- x) = Math.abs x.
Proof.
  unfold Math.abs. apply Prim2SF_inj. rewrite !abs_spec, opp_spec.
  now destruct (Prim2SF x).
Qed.

Lemma nonzero_opp (x : float) : nonzero (- x) = nonzero x.
Proof.
  unfold nonzero. rewrite !ltb_spec, opp_spec, Prim2SF_zero.
  destruct (Prim2SF x) as [[|]|[|]| |[|] m e]; reflexivity.
Qed.

Lemma ltb_zero_opp (x : float) : (0 <? - x) = (x <? 0).
Proof.
  rewrite !ltb_spec, opp_spec, Prim2SF_zero.
  destruct (Prim2SF x) as [[|]|[|]| |[|] m e]; reflexivity.
Qed.

Lemma positive_not_negative (x : float) :
  (0 <? x) = true -> (x <? 0) = false.
Proof.
  rewrite !ltb_spec, Prim2SF_zero.
  destruct (Prim2SF x) as [[|]|[|]| |[|] m e]; cbn; easy.
Qed.

Lemma nonzero_not_positive (x : float) :
  nonzero x = true -> (0 <? x) = false -> (x <? 0) = true.
Proof.
  unfold nonzero. intros H E. rewrite E in H. exact H.
Qed.

Lemma abs_positive (x : float) : (0 <? x) = true -> Math.abs x = x.
Proof.
  intros H. unfold Math.abs. apply Prim2SF_inj. rewrite abs_spec.
  rewrite ltb_spec, Prim2SF_zero in H.
  destruct (Prim2SF x) as [[|]|[|]| |[|] m e]; cbn in *; easy.
Qed.

Lemma abs_negative (x : float) : (x <? 0) = true -> Math.abs x = - x.
Proof.
  intros H. unfold Math.abs. apply Prim2SF_inj. rewrite abs_spec, opp_spec.
  rewrite ltb_spec, Prim2SF_zero in H.
  destruct (Prim2SF x) as [[|]|[|]| |[|] m e]; cbn in *; easy.
Qed.

Lemma SFmul_opp_l (x y : spec_float) :
  SFmul prec emax (SFopp x) y = SFopp (SFmul prec emax x y).
Proof.
  destruct x as [sx|sx| |sx mx ex], y as [sy|sy| |sy my ey];
    cbn [SFmul SFopp]; try reflexivity;
    try (now destruct sx, sy).
  rewrite <- binary_round_aux_opp. now destruct sx, sy.
Qed.

Lemma mul_opp_l (x y : float) : - x * y = - (x * y).
Proof.
  apply Prim2SF_inj. rewrite opp_spec, !mul_spec, opp_spec.
  apply SFmul_opp_l.
Qed.

Lemma negative_not_positive (x : float) :
  (x <? 0) = true -> (0 <? x) = false.
Proof.
  rewrite !ltb_spec, Prim2SF_zero.
  destruct (Prim2SF x) as [[|]|[|]| |[|] m e]; cbn; easy.
Qed.

(** A number minus itself is [+0]. *)
Lemma sub_diag (x : float) : finite x = true -> x - x = 0.
Proof.
  intros H. apply finite_inv in H. apply Prim2SF_inj.
  rewrite sub_spec, Prim2SF_zero.
  unfold SF64sub. destruct (Prim2SF x) as [[|]|[|]| |s m e]; try easy.
  cbn [SFsub]. now rewrite Z.sub_diag.
Qed.

(** ** Order *)

Lemma SFcompare_antisym (x y : spec_float) :
  SFcompare y x = option_map CompOpp (SFcompare x y).
Proof.
  destruct x as [[|]|[|]| |[|] mx ex], y as [[|]|[|]| |[|] my ey];
    try reflexivity; cbn [SFcompare option_map];
    rewrite (Z.compare_antisym ex ey);
    destruct (ex ?= ey)%Z; cbn [CompOpp]; try reflexivity;
    rewrite (Pos.compare_cont_antisym mx my Eq); reflexivity.
Qed.

Lemma leb_not_ltb (a b : float) : (a <=? b) = true -> (b <? a) = false.
Proof.
  rewrite leb_spec, ltb_spec. unfold SFleb, SFltb.
  rewrite (SFcompare_antisym (Prim2SF a) (Prim2SF b)).
  destruct (SFcompare (Prim2SF a) (Prim2SF b)) as [[| |]|]; cbn; easy.
Qed.

(** ** A few exact operations *)

Lemma ltb_irrefl (x : float) : (x <? x) = false.
Proof.
  rewrite ltb_spec. unfold SFltb.
  destruct (Prim2SF x) as [[|]|[|]| |[|] m e]; try reflexivity;
    cbn [SFcompare]; rewrite Z.compare_refl, Pos.compare_cont_refl;
    reflexivity.
Qed.

Lemma leb_refl (x : float) : finite x = true -> (x <=? x) = true.
Proof.
  intros H. apply finite_inv in H. rewrite leb_spec. unfold SFleb.
  destruct (Prim2SF x) as [[|]|[|]| |[|] m e]; try easy;
    cbn [SFcompare]; rewrite Z.compare_refl, Pos.compare_cont_refl;
    reflexivity.
Qed.

Lemma sub_zero_r (x : float) : (0 <? x) = true -> x - 0 = x.
Proof.
  intros H. apply Prim2SF_inj. rewrite sub_spec, Prim2SF_zero.
  rewrite ltb_spec, Prim2SF_zero in H.
  destruct (Prim2SF x) as [[|]|[|]| |[|] m e]; cbn in *; easy.
Qed.

Lemma div_eucl_mul (m : positive) (k : Z) :
  Z.div_eucl (Z.pos m * k) (Z.pos m) = (k, 0%Z).
Proof.
  assert (E : Z.div_eucl (Z.pos m * k) (Z.pos m)
              = ((Z.pos m * k) / Z.pos m, (Z.pos m * k) mod Z.pos m)%Z).
  { unfold Z.div, Z.modulo.
    now destruct (Z.div_eucl (Z.pos m * k) (Z.pos m)). }
  rewrite E, (Z.mul_comm (Z.pos m) k), Z.div_mul, Z.mod_mul by lia.
  reflexivity.
Qed.

Lemma SFdiv_diag (s : bool) (m : positive) (e : Z) :
  SFdiv prec emax (S754_finite s m e) (S754_finite s m e) =
  S754_finite false 4503599627370496 (-52).
Proof.
  cbn [SFdiv]. unfold SFdiv_core_binary.
  rewrite !Z.sub_diag.
  change (Z.min (fexp prec emax 0) 0) with (-53)%Z.
  change (0 - -53)%Z with 53%Z. cbv iota.
  rewrite Z.shiftl_mul_pow2 by lia.
  rewrite div_eucl_mul.
  replace (new_location (Z.pos m) 0) with loc_Exact
    by (unfold new_location; now destruct (Z.even (Z.pos m))).
  rewrite xorb_nilpotent. reflexivity.
Qed.

Lemma Prim2SF_one : Prim2SF 1 = S754_finite false 4503599627370496 (-52).
Proof. reflexivity. Qed.

Lemma div_diag (x : float) :
  (0 <? x) = true -> finite x = true -> x / x = 1.
Proof.
  intros Hpos Hf. apply finite_inv in Hf.
  apply Prim2SF_inj. rewrite div_spec, Prim2SF_one.
  rewrite ltb_spec, Prim2SF_zero in Hpos.
  destruct (Prim2SF x) as [[|]|[|]| |s m e]; try easy.
  apply SFdiv_diag.
Qed.

Lemma mul_zero_not_positive (x : float) : (0 <? x * 0) = false.
Proof.
  rewrite ltb_spec, mul_spec, Prim2SF_zero.
  now destruct (Prim2SF x) as [[|]|[|]| |[|] m e].
Qed.

End Signs.

(** ** The test [x >> y] *)

(** X6.  The test is true exactly when [ToInt32 x] is negative or at least
    [2 ^ s], where [s] is [ToUint32 y] modulo 32: it reads the low 32 bits
    of the integer part of [x] and the low 5 bits of the integer part of
    [y], and compares no magnitudes. *)
Theorem shiftTest_spec (x y : float) :
  shiftTest x y = true <->
  (JS.ToInt32 x < 0 \/ 2 ^ (JS.ToUint32 y mod 32) <= JS.ToInt32 x)%Z.
Proof.
  unfold shiftTest, JS.truthy, JS.shr.
  change 31%Z with (Z.ones 5). rewrite Z.land_ones by lia.
  change (2 ^ 5)%Z with 32%Z.
  set (a := JS.ToInt32 x). set (s := (JS.ToUint32 y mod 32)%Z).
  assert (Hs : (0 <= s < 32)%Z) by (apply Z.mod_pos_bound; lia).
  rewrite Z.shiftr_div_pow2 by lia.
  assert (Hp : (0 < 2 ^ s)%Z) by (apply Z.pow_pos_nonneg; lia).
  rewrite negb_true_iff, Z.eqb_neq, Z.div_small_iff by lia. lia.
Qed.

(** A negative [ToInt32 x] stays negative under every shift. *)
Lemma shiftTest_negative (x y : float) :
  (JS.ToInt32 x < 0)%Z -> shiftTest x y = true.
Proof.
  intros H. unfold shiftTest, JS.truthy, JS.shr.
  apply negb_true_iff, Z.eqb_neq.
  assert (Z.shiftr (JS.ToInt32 x) (Z.land (JS.ToUint32 y) 31) < 0)%Z
    by now apply Z.shiftr_neg.
  lia.
Qed.

(** A zero [ToInt32 x] stays zero. *)
Lemma shiftTest_zero (x y : float) :
  JS.ToInt32 x = 0%Z -> shiftTest x y = false.
Proof.
  intros H. unfold shiftTest, JS.truthy, JS.shr.
  now rewrite H, Z.shiftr_0_l.
Qed.

(** ** The three regimes *)

Section Regimes.

Variable M : MathImpl.
Variables (material : MaterialProperties).
Variables (temperature donorConc acceptorConc kB : float).

Let ni0 := intrinsic M material temperature kB.
Let net := netDoping donorConc acceptorConc.
Let r := solve M material temperature donorConc acceptorConc kB.

Lemma solve_n_type :
  (0 <? net) = true -> (ni0 <=? Math.abs net) = true ->
  r = let n := if shiftTest net ni0 then net
               else (net + Math.sqrt (net * net + 4 * ni0 * ni0)) / 2 in
      {| ni := ni0; n := n; p := ni0 * ni0 / n;
         fermiLevel := kB * temperature * Math_log M (n / ni0);
         conductionType := "n-type" |}.
Proof.
  intros Hpos Hge. apply leb_not_ltb in Hge.
  unfold r, solve, carriers. fold ni0 net. rewrite Hge, Hpos.
  now destruct (shiftTest net ni0).
Qed.

Lemma solve_p_type :
  (net <? 0) = true -> (ni0 <=? Math.abs net) = true ->
  r = let netAcceptor := Math.abs net in
      let p := if shiftTest netAcceptor ni0 then netAcceptor
               else (netAcceptor
                     + Math.sqrt (netAcceptor * netAcceptor + 4 * ni0 * ni0))
                    / 2 in
      {| ni := ni0; n := ni0 * ni0 / p; p := p;
         fermiLevel := - kB * temperature * Math_log M (p / ni0);
         conductionType := "p-type" |}.
Proof.
  intros Hneg Hge. apply leb_not_ltb in Hge.
  apply negative_not_positive in Hneg.
  unfold r, solve, carriers. fold ni0 net. rewrite Hge, Hneg.
  cbv zeta. now destruct (shiftTest (Math.abs net) ni0).
Qed.

End Regimes.

(** ** C1: the mass-action law *)

(** At 17 K the square of silicon's intrinsic concentration is about
    [6e-321]: the hole concentration [ni * ni / n] underflows to zero. *)
Lemma silicon_17K :
  let r := solve RefMath.impl silicon 17 1e16 0 defaultKB in
  Prim2SF (ni r) = S754_finite false 4881035280627877 (-584) /\
  n r = 1e16 /\ Prim2SF (p r) = S754_zero false.
Proof. cbv zeta. repeat split; vm_compute; reflexivity. Qed.

(** C1, as stated, fails on two valid inputs.  Silicon at 1 K without
    doping: [ni] is zero, the last branch divides zero by zero and [n] is
    NaN.  Silicon at 17 K with [1e16] donors: [p] underflows to zero, so
    [n * p] is zero while [ni] is not. *)
Lemma mass_action_fails :
  ~ massAction (solve RefMath.impl silicon 1 0 0 defaultKB) /\
  ~ massAction (solve RefMath.impl silicon 17 1e16 0 defaultKB).
Proof.
  split.
  - intros (_ & H & _). vm_compute in H. discriminate H.
  - destruct silicon_17K as (Hni & _ & Hp).
    intros (_ & _ & _ & H). unfold F2R in H. rewrite Hni, Hp in H.
    cbn [SF2R] in H.
    assert (H2 : (0 < powerRZ 2 (-584))%R) by (apply powerRZ_lt; lra).
    set (c := (1 * 4881035280627877 * powerRZ 2 (-584))%R) in H.
    assert (Hc : (0 < c * c)%R) by (unfold c; nra).
    rewrite Rmult_0_r, Rminus_0_l, Rabs_Ropp, Rabs_pos_eq in H; lra.
Qed.

(** C1, amended.  Whenever the returned [n] and [p] and the product
    [ni * ni] are normal numbers (nothing overflowed, underflowed or became
    NaN), the three concentrations are numbers and [n * p] is the square of
    [ni] to within the relative tolerance [1e-9], in every branch. *)
Theorem mass_action_when_normal (M : MathImpl)
    (material : MaterialProperties)
    (temperature donorConc acceptorConc kB : float) :
  let r := solve M material temperature donorConc acceptorConc kB in
  normal (ni r * ni r) = true ->
  normal (n r) = true ->
  normal (p r) = true ->
  massAction r.
Proof.
  cbv zeta. unfold solve.
  set (ni0 := intrinsic M material temperature kB).
  set (net := netDoping donorConc acceptorConc).
  unfold carriers, massAction.
  destruct (Math.abs net <? ni0).
  - cbn [ni n p]. intros Hq Hn _.
    apply normal_finite in Hn. repeat split; try exact Hn.
    rewrite Rminus_diag, Rabs_R0.
    pose proof (Rle_0_sqr (F2R ni0)) as Hs. unfold Rsqr in Hs. lra.
  - destruct (0 <? net);
      [destruct (shiftTest net ni0)
      |destruct (shiftTest (Math.abs net) ni0)];
      cbn [ni n p]; intros Hq Hn Hp;
      destruct (mul_normal_finite _ _ Hq) as [Hf _];
      (repeat split;
       [exact Hf | now apply normal_finite | now apply normal_finite | ]);
      try (now apply quotient_product);
      rewrite Rmult_comm; now apply quotient_product.
Qed.

Lemma mass_action_when_normal_witness :
  (let r := solve RefMath.impl silicon 300 1e16 0 defaultKB in
   normal (ni r * ni r) = true /\ normal (n r) = true /\
   normal (p r) = true) /\
  massAction (solve RefMath.impl silicon 300 1e16 0 defaultKB).
Proof.
  split; [cbv zeta; repeat split; vm_compute; reflexivity|].
  apply mass_action_when_normal; vm_compute; reflexivity.
Defined.

(** ** C2: no input is rejected *)

Lemma nonPhysical_examples :
  nonPhysical (withConditions 0 1e16 0 defaultKB) /\
  nonPhysical (withConditions (-10) 1e16 0 defaultKB) /\
  nonPhysical (withConditions 300 1e16 0 0) /\
  nonPhysical (withConditions 300 (-1) 0 defaultKB).
Proof.
  unfold nonPhysical; repeat split; cbn; tauto.
Qed.

(** What the call stores at [T = 0]: a record, with a NaN in it. *)
Example results_at_zero_temperature :
  calculateConcentrations RefMath.impl (withConditions 0 1e16 0 defaultKB) =
    Completed
      (setResults (withConditions 0 1e16 0 defaultKB)
         {| ni := 0; n := 1e16; p := 0; fermiLevel := nan;
            conductionType := "n-type" |}).
Proof. vm_compute. reflexivity. Qed.

(** C2, as stated, fails: at [T = 0], [T = -10], [kB = 0] and
    [donorConc = -1], all non-physical, the call raises nothing. *)
Lemma non_physical_inputs_accepted :
  ~ raises (calculateConcentrations RefMath.impl
              (withConditions 0 1e16 0 defaultKB)) /\
  ~ raises (calculateConcentrations RefMath.impl
              (withConditions (-10) 1e16 0 defaultKB)) /\
  ~ raises (calculateConcentrations RefMath.impl
              (withConditions 300 1e16 0 0)) /\
  ~ raises (calculateConcentrations RefMath.impl
              (withConditions 300 (-1) 0 defaultKB)).
Proof.
  repeat split; intros [e H]; discriminate H.
Qed.

(** C2, amended.  The function checks none of its numeric inputs: whatever
    the temperature, the Boltzmann constant and the concentrations are, the
    call raises exactly when [selectedMaterial] indexes no material, and it
    otherwise completes and stores the record computed by [solve]. *)
Theorem raises_only_without_material (M : MathImpl) (st : AppState) :
  (raises (calculateConcentrations M st) <->
   nth_error (materials st) (selectedMaterial st) = None) /\
  (forall material,
     nth_error (materials st) (selectedMaterial st) = Some material ->
     calculateConcentrations M st =
       Completed
         (setResults st
            (solve M material (temperature st) (donorConc st)
                   (acceptorConc st) (kB st)))).
Proof.
  split.
  - unfold calculateConcentrations, raises.
    destruct (nth_error (materials st) (selectedMaterial st)) as [m|].
    + split; [intros [e H]; discriminate H | discriminate].
    + split; [reflexivity | intros _; now exists TypeError].
  - intros material. apply calculateConcentrations_completed.
Qed.

(** ** C3: when the approximation is applied *)

(** C3, at the failing inputs.  In the n-type regime the approximation
    [n = netDoping] is applied whenever [ToInt32 netDoping] is negative,
    however little the net doping exceeds [ni]. *)
Theorem approximation_without_dominance (M : MathImpl)
    (material : MaterialProperties)
    (temperature donorConc acceptorConc kB : float) :
  let ni0 := intrinsic M material temperature kB in
  let net := netDoping donorConc acceptorConc in
  (0 <? net) = true ->
  (ni0 <=? Math.abs net) = true ->
  (JS.ToInt32 net < 0)%Z ->
  let r := solve M material temperature donorConc acceptorConc kB in
  conductionType r = "n-type" /\ n r = net /\ p r = ni0 * ni0 / net.
Proof.
  intros ni0 net Hpos Hge Hneg r. unfold r.
  rewrite (solve_n_type _ _ _ _ _ _ Hpos Hge). fold ni0 net.
  rewrite (shiftTest_negative net ni0 Hneg). cbn. auto.
Qed.

(** Silicon at 300 K with [6.7e9] donors: the net doping exceeds [ni] by
    less than one percent, and [n = netDoping]. *)
Lemma approximation_without_dominance_witness :
  let ni0 := intrinsic RefMath.impl silicon 300 defaultKB in
  let net := netDoping 6.7e9 0 in
  let r := solve RefMath.impl silicon 300 6.7e9 0 defaultKB in
  ((0 <? net) = true /\ (ni0 <=? Math.abs net) = true /\
   (net <? 1.01 * ni0) = true /\ JS.ToInt32 net = (-1889934592)%Z) /\
  (conductionType r = "n-type" /\ n r = net /\ p r = ni0 * ni0 / net).
Proof.
  cbv zeta. split; [repeat split; vm_compute; reflexivity|].
  apply approximation_without_dominance;
    vm_compute; reflexivity.
Defined.

(** ** C4: the intrinsic concentration *)

(** C4.  The intrinsic concentration returned is
    [sqrt (Nc(T) * Nv(T)) * exp (- Eg(T) / (2 * kB * T))] with
    [Eg(T) = bandgap + coefficient * (T - 300)], not clamped, and
    [Nc(T) = Nc300 * (T/300)^1.5], [Nv(T) = Nv300 * (T/300)^1.5]: the
    formulas of the specification, for every input (so for those with
    [T > 0] and [kB > 0]) and in every branch. *)
Theorem intrinsic_concentration_formula (M : MathImpl)
    (material : MaterialProperties)
    (temperature donorConc acceptorConc kB : float) :
  ni (solve M material temperature donorConc acceptorConc kB) =
    Spec.ni M (bandgap material) (Nc300 material) (Nv300 material)
            (temperatureCoeff material) temperature kB.
Proof.
  unfold solve. rewrite ni_carriers. reflexivity.
Qed.

(** ** C5: the n-type regime *)

(** X2, the part of C5 that holds: in the n-type regime the record is n-type,
    [p = ni * ni / n], the offset is [kB * T * log (n / ni)], and [n] is
    the solution of the quadratic when the shift test is false (the net
    doping itself when it is true). *)
Theorem n_type_regime (M : MathImpl) (material : MaterialProperties)
    (temperature donorConc acceptorConc kB : float) :
  let ni0 := intrinsic M material temperature kB in
  let net := netDoping donorConc acceptorConc in
  let r := solve M material temperature donorConc acceptorConc kB in
  (0 <? net) = true ->
  (ni0 <=? Math.abs net) = true ->
  conductionType r = "n-type" /\
  ni r = ni0 /\
  p r = ni0 * ni0 / n r /\
  fermiLevel r = kB * temperature * Math_log M (n r / ni0) /\
  (shiftTest net ni0 = false ->
   n r = (net + Math.sqrt (net * net + 4 * ni0 * ni0)) / 2) /\
  (shiftTest net ni0 = true -> n r = net).
Proof.
  intros ni0 net r Hpos Hge. unfold r.
  rewrite (solve_n_type _ _ _ _ _ _ Hpos Hge). fold ni0 net.
  cbn. repeat split; intros ->; reflexivity.
Qed.

Lemma n_type_regime_witness :
  let ni0 := intrinsic RefMath.impl silicon 300 defaultKB in
  let net := netDoping 8589934592 0 in
  let r := solve RefMath.impl silicon 300 8589934592 0 defaultKB in
  ((0 <? net) = true /\ (ni0 <=? Math.abs net) = true) /\
  conductionType r = "n-type" /\
  ni r = ni0 /\
  p r = ni0 * ni0 / n r /\
  fermiLevel r = defaultKB * 300 * Math_log RefMath.impl (n r / ni0) /\
  (shiftTest net ni0 = false ->
   n r = (net + Math.sqrt (net * net + 4 * ni0 * ni0)) / 2) /\
  (shiftTest net ni0 = true -> n r = net).
Proof.
  cbv zeta. split; [split; vm_compute; reflexivity|].
  apply n_type_regime; vm_compute; reflexivity.
Defined.

(** C5, at the failing inputs.  A donor concentration equal to the
    intrinsic concentration itself, without acceptors, is in the n-type
    regime; when [ToInt32 ni] is negative the approximation is applied,
    [n = ni], and the offset [kB * T * log (n / ni)] is [kB * T * log 1],
    which is not positive ([Math.log 1] is [+0] in every engine). *)
Theorem fermi_level_zero_in_n_type (M : MathImpl)
    (material : MaterialProperties) (temperature kB : float) :
  let ni0 := intrinsic M material temperature kB in
  (0 <? ni0) = true ->
  finite ni0 = true ->
  (JS.ToInt32 ni0 < 0)%Z ->
  Math_log M 1 = 0 ->
  let r := solve M material temperature ni0 0 kB in
  (0 <? netDoping ni0 0) = true /\
  (ni0 <=? Math.abs (netDoping ni0 0)) = true /\
  conductionType r = "n-type" /\
  n r = ni0 /\
  fermiLevel r = kB * temperature * Math_log M (n r / ni r) /\
  fermiLevel r = kB * temperature * 0 /\
  (0 <? fermiLevel r) = false.
Proof.
  intros ni0 Hpos Hf Hneg Hlog r.
  assert (Hnet : netDoping ni0 0 = ni0) by (apply sub_zero_r, Hpos).
  assert (Hge : (ni0 <=? Math.abs (netDoping ni0 0)) = true).
  { rewrite Hnet, (abs_positive _ Hpos). now apply leb_refl. }
  assert (Hp : (0 <? netDoping ni0 0) = true) by now rewrite Hnet.
  split; [exact Hp|]. split; [exact Hge|].
  unfold r. rewrite (solve_n_type _ _ _ _ _ _ Hp Hge). fold ni0.
  rewrite Hnet, (shiftTest_negative _ _ Hneg).
  cbn [ni n p fermiLevel conductionType].
  rewrite (div_diag _ Hpos Hf), Hlog.
  repeat split. apply mul_zero_not_positive.
Qed.

(** Silicon at 300 K with [donorConc = ni]. *)
Lemma fermi_level_zero_in_n_type_witness :
  let ni0 := intrinsic RefMath.impl silicon 300 defaultKB in
  let r := solve RefMath.impl silicon 300 ni0 0 defaultKB in
  ((0 <? ni0) = true /\ finite ni0 = true /\
   JS.ToInt32 ni0 = (-1919626385)%Z /\ Math_log RefMath.impl 1 = 0) /\
  ((0 <? netDoping ni0 0) = true /\
   (ni0 <=? Math.abs (netDoping ni0 0)) = true /\
   conductionType r = "n-type" /\
   n r = ni0 /\
   fermiLevel r = defaultKB * 300 * Math_log RefMath.impl (n r / ni r) /\
   fermiLevel r = defaultKB * 300 * 0 /\
   (0 <? fermiLevel r) = false).
Proof.
  cbv zeta. split; [repeat split; vm_compute; reflexivity|].
  apply fermi_level_zero_in_n_type; vm_compute; reflexivity.
Defined.

(** ** C6: the intrinsic regime *)

(** X1, the part of C6 that holds: with [|netDoping| < ni] the record is the
    intrinsic one. *)
Theorem intrinsic_regime (M : MathImpl) (material : MaterialProperties)
    (temperature donorConc acceptorConc kB : float) :
  let ni0 := intrinsic M material temperature kB in
  (Math.abs (netDoping donorConc acceptorConc) <? ni0) = true ->
  solve M material temperature donorConc acceptorConc kB =
    {| ni := ni0; n := ni0; p := ni0; fermiLevel := 0;
       conductionType := "Intrinsic" |}.
Proof.
  intros ni0 H. unfold solve. now apply carriers_intrinsic.
Qed.

Lemma intrinsic_regime_witness :
  let ni0 := intrinsic RefMath.impl silicon 300 defaultKB in
  (Math.abs (netDoping 1e9 2e9) <? ni0) = true /\
  solve RefMath.impl silicon 300 1e9 2e9 defaultKB =
    {| ni := ni0; n := ni0; p := ni0; fermiLevel := 0;
       conductionType := "Intrinsic" |}.
Proof.
  cbv zeta. split; [vm_compute; reflexivity|].
  apply intrinsic_regime. vm_compute. reflexivity.
Defined.

(** X3.  Equal concentrations give the intrinsic record when they are numbers
    and [ni] is positive. *)
Theorem equal_doping_intrinsic (M : MathImpl) (material : MaterialProperties)
    (temperature doping kB : float) :
  let ni0 := intrinsic M material temperature kB in
  finite doping = true ->
  (0 <? ni0) = true ->
  solve M material temperature doping doping kB =
    {| ni := ni0; n := ni0; p := ni0; fermiLevel := 0;
       conductionType := "Intrinsic" |}.
Proof.
  intros ni0 Hf Hni. unfold solve. apply carriers_intrinsic.
  unfold netDoping. rewrite (sub_diag _ Hf). exact Hni.
Qed.

Lemma equal_doping_intrinsic_witness :
  let ni0 := intrinsic RefMath.impl silicon 300 defaultKB in
  (finite 1e16 = true /\ (0 <? ni0) = true) /\
  solve RefMath.impl silicon 300 1e16 1e16 defaultKB =
    {| ni := ni0; n := ni0; p := ni0; fermiLevel := 0;
       conductionType := "Intrinsic" |}.
Proof.
  cbv zeta. split; [split; vm_compute; reflexivity|].
  apply equal_doping_intrinsic; vm_compute; reflexivity.
Defined.

(** With [ni = 0] the first test [|netDoping| < ni] fails for every
    [netDoping], zero included; a zero [netDoping] is not positive, so it
    reaches the last branch, where [0 * 0 / 0] is NaN.  This holds for every
    engine. *)
Lemma carriers_zero_zero (M : MathImpl) (kB T : float) :
  carriers M 0 0 kB T =
    {| ni := 0; n := nan; p := 0;
       fermiLevel := - kB * T * Math_log M nan;
       conductionType := "p-type" |}.
Proof. reflexivity. Qed.

(** At 1 K the exponential of silicon underflows to zero. *)
Lemma intrinsic_silicon_1K : intrinsic RefMath.impl silicon 1 defaultKB = 0.
Proof. vm_compute. reflexivity. Qed.

(** The same branch is reached from the editor of the application: with the
    [Nc300] field of silicon and the donor field cleared ([Number("")] is
    [0]), at 300 K. *)
Example cleared_fields :
  calculateConcentrations RefMath.impl
    {| materials :=
         [ {| name := "Silicon"; bandgap := 1.12; Nc300 := 0;
              Nv300 := 1.04e19; temperatureCoeff := -2.73e-4 |};
           germanium; GaAs ];
       selectedMaterial := 0;
       temperature := 300;
       donorConc := 0;
       acceptorConc := 0;
       kB := defaultKB;
       results := results initialState |}
  = Completed
      {| materials :=
           [ {| name := "Silicon"; bandgap := 1.12; Nc300 := 0;
                Nv300 := 1.04e19; temperatureCoeff := -2.73e-4 |};
             germanium; GaAs ];
         selectedMaterial := 0;
         temperature := 300;
         donorConc := 0;
         acceptorConc := 0;
         kB := defaultKB;
         results := {| ni := 0; n := nan; p := 0; fermiLevel := nan;
                       conductionType := "p-type" |} |}.
Proof. vm_compute. reflexivity. Qed.

Lemma solve_equal_doping_zero_ni (M : MathImpl)
    (material : MaterialProperties) (temperature doping kB : float) :
  intrinsic M material temperature kB = 0 ->
  finite doping = true ->
  solve M material temperature doping doping kB =
    {| ni := 0; n := nan; p := 0;
       fermiLevel := - kB * temperature * Math_log M nan;
       conductionType := "p-type" |}.
Proof.
  intros H Hf. unfold solve, netDoping. rewrite H, (sub_diag _ Hf).
  apply carriers_zero_zero.
Qed.

(** C6, at the failing inputs.  Whenever the intrinsic concentration
    computes to zero, equal donor and acceptor concentrations do not give
    the intrinsic regime: the record is labelled p-type, not intrinsic, and
    its electron concentration is NaN. *)
Theorem zero_doping_not_intrinsic (M : MathImpl)
    (material : MaterialProperties) (temperature doping kB : float) :
  intrinsic M material temperature kB = 0 ->
  finite doping = true ->
  let r := solve M material temperature doping doping kB in
  netDoping doping doping = 0 /\
  conductionType r <> "Intrinsic" /\
  r = {| ni := 0; n := nan; p := 0;
         fermiLevel := - kB * temperature * Math_log M nan;
         conductionType := "p-type" |}.
Proof.
  intros H Hf r. unfold r.
  rewrite (solve_equal_doping_zero_ni _ _ _ _ _ H Hf).
  split; [exact (sub_diag _ Hf)|]. split; [discriminate | reflexivity].
Qed.

Lemma zero_doping_not_intrinsic_witness :
  (intrinsic RefMath.impl silicon 1 defaultKB = 0 /\ finite 0 = true) /\
  (let r := solve RefMath.impl silicon 1 0 0 defaultKB in
   netDoping 0 0 = 0 /\
   conductionType r <> "Intrinsic" /\
   r = {| ni := 0; n := nan; p := 0;
          fermiLevel := - defaultKB * 1 * Math_log RefMath.impl nan;
          conductionType := "p-type" |}).
Proof.
  split; [split; [exact intrinsic_silicon_1K | reflexivity]|].
  apply zero_doping_not_intrinsic;
    [exact intrinsic_silicon_1K | reflexivity].
Defined.

(** ** C7: the intrinsic concentration does not depend on the doping *)

(** C7.  For a fixed material, temperature and Boltzmann constant, the
    returned intrinsic concentration is the same whatever the donor and
    acceptor concentrations. *)
Theorem intrinsic_independent_of_doping (M : MathImpl)
    (material : MaterialProperties) (temperature kB : float)
    (donor1 acceptor1 donor2 acceptor2 : float) :
  ni (solve M material temperature donor1 acceptor1 kB) =
  ni (solve M material temperature donor2 acceptor2 kB).
Proof.
  unfold solve. now rewrite !ni_carriers.
Qed.

(** ** C8: monotonicity in the donor concentration *)

(** C8, at the failing input.  Silicon at 300 K, no acceptors: raising the
    donor concentration from [2^33] to [2^33 + 2^31] lowers the electron
    concentration and the Fermi level offset.  At [2^33], [ToInt32] is zero
    and the exact solution is used; at [2^33 + 2^31] it is negative and the
    approximation is used. *)
Theorem electron_concentration_decreases :
  let r1 := solve RefMath.impl silicon 300 8589934592 0 defaultKB in
  let r2 := solve RefMath.impl silicon 300 10737418240 0 defaultKB in
  (8589934592 <? 10737418240) = true /\
  (netDoping 8589934592 0 <? netDoping 10737418240 0) = true /\
  shiftTest 8589934592 (ni r1) = false /\
  shiftTest 10737418240 (ni r2) = true /\
  (n r2 <? n r1) = true /\
  (fermiLevel r2 <? fermiLevel r1) = true.
Proof. cbv zeta. repeat split; vm_compute; reflexivity. Qed.

(** X9.  The two formulas alternate whatever the engine computes for [ni]:
    in the n-type regime a donor concentration of [2^33] is solved exactly
    and the larger one of [2^33 + 2^31] is approximated. *)
Theorem regime_test_alternates (M : MathImpl)
    (material : MaterialProperties) (temperature kB : float) :
  let ni0 := intrinsic M material temperature kB in
  (ni0 <=? 8589934592) = true ->
  (ni0 <=? 10737418240) = true ->
  n (solve M material temperature 8589934592 0 kB) =
    (8589934592
     + Math.sqrt (8589934592 * 8589934592 + 4 * ni0 * ni0)) / 2 /\
  n (solve M material temperature 10737418240 0 kB) = 10737418240.
Proof.
  intros ni0 H1 H2. split.
  - rewrite (solve_n_type M material temperature 8589934592 0 kB
               eq_refl H1).
    fold ni0. change (netDoping 8589934592 0) with 8589934592.
    now rewrite (shiftTest_zero 8589934592 ni0 eq_refl).
  - rewrite (solve_n_type M material temperature 10737418240 0 kB
               eq_refl H2).
    fold ni0. change (netDoping 10737418240 0) with 10737418240.
    now rewrite (shiftTest_negative 10737418240 ni0 eq_refl).
Qed.

Lemma regime_test_alternates_witness :
  let ni0 := intrinsic RefMath.impl silicon 300 defaultKB in
  ((ni0 <=? 8589934592) = true /\ (ni0 <=? 10737418240) = true) /\
  n (solve RefMath.impl silicon 300 8589934592 0 defaultKB) =
    (8589934592
     + Math.sqrt (8589934592 * 8589934592 + 4 * ni0 * ni0)) / 2 /\
  n (solve RefMath.impl silicon 300 10737418240 0 defaultKB) = 10737418240.
Proof.
  cbv zeta. split; [split; vm_compute; reflexivity|].
  apply regime_test_alternates; vm_compute; reflexivity.
Defined.

(** ** C9: exchanging donors and acceptors *)

(** X5, the part of C9 that holds: when the net doping is a number other than
    zero, exchanging the two concentrations exchanges [n] and [p], negates
    the offset and mirrors the conduction type. *)
Theorem exchange_mirrors (M : MathImpl) (material : MaterialProperties)
    (temperature donorConc acceptorConc kB : float) :
  nonzero (netDoping donorConc acceptorConc) = true ->
  mirrored (solve M material temperature donorConc acceptorConc kB)
           (solve M material temperature acceptorConc donorConc kB).
Proof.
  intros H. unfold solve, netDoping in *.
  rewrite (sub_antisym _ _ H).
  set (ni0 := intrinsic M material temperature kB).
  set (net := donorConc - acceptorConc) in *.
  unfold carriers, mirrored. rewrite abs_opp, ltb_zero_opp.
  destruct (Math.abs net <? ni0).
  - cbn. repeat split. right. reflexivity.
  - destruct (0 <? net) eqn:Hpos.
    + rewrite (positive_not_negative _ Hpos), (abs_positive _ Hpos).
      destruct (shiftTest net ni0); cbn; repeat split; left;
        now rewrite !mul_opp_l.
    + rewrite (nonzero_not_positive _ H Hpos).
      rewrite (abs_negative _ (nonzero_not_positive _ H Hpos)).
      destruct (shiftTest (- net) ni0); cbn; repeat split; left;
        now rewrite !mul_opp_l, opp_involutive.
Qed.

Lemma exchange_mirrors_witness :
  nonzero (netDoping 1e16 1e15) = true /\
  mirrored (solve RefMath.impl silicon 300 1e16 1e15 defaultKB)
           (solve RefMath.impl silicon 300 1e15 1e16 defaultKB).
Proof.
  split; [vm_compute; reflexivity|].
  apply exchange_mirrors. vm_compute. reflexivity.
Defined.

(** C9, at the failing inputs.  Whenever the intrinsic concentration
    computes to zero and the two concentrations are equal, the exchanged
    input is the same input and its record, p-type with [n] NaN and
    [p = 0], is not its own mirror image. *)
Theorem exchange_at_zero_net_doping (M : MathImpl)
    (material : MaterialProperties) (temperature doping kB : float) :
  intrinsic M material temperature kB = 0 ->
  finite doping = true ->
  let r := solve M material temperature doping doping kB in
  conductionType r = "p-type" /\ n r = nan /\ p r = 0 /\
  ~ mirrored r r.
Proof.
  intros H Hf r. unfold r.
  rewrite (solve_equal_doping_zero_ni _ _ _ _ _ H Hf).
  cbn. repeat split.
  intros (_ & _ & _ & _ & Ht). cbn in Ht. discriminate Ht.
Qed.

Lemma exchange_at_zero_net_doping_witness :
  (intrinsic RefMath.impl silicon 1 defaultKB = 0 /\ finite 1e16 = true) /\
  (let r := solve RefMath.impl silicon 1 1e16 1e16 defaultKB in
   conductionType r = "p-type" /\ n r = nan /\ p r = 0 /\
   ~ mirrored r r).
Proof.
  split; [split; [exact intrinsic_silicon_1K | reflexivity]|].
  apply exchange_at_zero_net_doping;
    [exact intrinsic_silicon_1K | reflexivity].
Defined.

(** ** C10: the doping enters through the computed difference *)

(** C10, as stated, fails: the difference is a rounded one.  For silicon at
    300 K, adding [1e27] to a donor concentration of [1e10] and to an
    acceptor concentration of [0] turns an n-type result into an intrinsic
    one, since [1e10 + 1e27] rounds to [1e27]. *)
Lemma common_shift_changes_result :
  (1e10 + 1e27) - (0 + 1e27) = 0 /\
  conductionType (solve RefMath.impl silicon 300 1e10 0 defaultKB)
    = "n-type" /\
  conductionType
    (solve RefMath.impl silicon 300 (1e10 + 1e27) (0 + 1e27) defaultKB)
    = "Intrinsic" /\
  solve RefMath.impl silicon 300 (1e10 + 1e27) (0 + 1e27) defaultKB
    <> solve RefMath.impl silicon 300 1e10 0 defaultKB.
Proof.
  repeat split; try (vm_compute; reflexivity).
  intros H. apply (f_equal conductionType) in H.
  vm_compute in H. discriminate H.
Qed.

(** C10, amended.  The result depends on the donor and acceptor
    concentrations only through the computed [netDoping]: two inputs with
    the same material, temperature and constant whose differences are the
    same number give the same record; so does adding [c] to both
    concentrations whenever [(d + c) - (a + c)] computes to [d - a]. *)
Theorem result_depends_on_netDoping (M : MathImpl)
    (material : MaterialProperties) (temperature kB : float)
    (donor1 acceptor1 donor2 acceptor2 : float) :
  netDoping donor1 acceptor1 = netDoping donor2 acceptor2 ->
  solve M material temperature donor1 acceptor1 kB =
  solve M material temperature donor2 acceptor2 kB.
Proof.
  intros H. unfold solve. now rewrite H.
Qed.

Lemma result_depends_on_netDoping_witness :
  netDoping (1e16 + 1e15) (1e15 + 1e15) = netDoping 1e16 1e15 /\
  solve RefMath.impl silicon 300 (1e16 + 1e15) (1e15 + 1e15) defaultKB =
  solve RefMath.impl silicon 300 1e16 1e15 defaultKB.
Proof.
  split; [vm_compute; reflexivity|].
  apply result_depends_on_netDoping. vm_compute. reflexivity.
Defined.

(** ** The p-type regime and the scenarios of the specification *)

(** X4.  In the p-type regime the record is p-type, [n = ni * ni / p], the
    offset is [- kB * T * log (p / ni)], and [p] is the solution of the
    quadratic in [netAcceptor = |netDoping|] when the shift test is false
    ([netAcceptor] itself when it is true). *)
Theorem p_type_regime (M : MathImpl) (material : MaterialProperties)
    (temperature donorConc acceptorConc kB : float) :
  let ni0 := intrinsic M material temperature kB in
  let net := netDoping donorConc acceptorConc in
  let netAcceptor := Math.abs net in
  let r := solve M material temperature donorConc acceptorConc kB in
  (net <? 0) = true ->
  (ni0 <=? Math.abs net) = true ->
  conductionType r = "p-type" /\
  ni r = ni0 /\
  n r = ni0 * ni0 / p r /\
  fermiLevel r = - kB * temperature * Math_log M (p r / ni0) /\
  (shiftTest netAcceptor ni0 = false ->
   p r = (netAcceptor
          + Math.sqrt (netAcceptor * netAcceptor + 4 * ni0 * ni0)) / 2) /\
  (shiftTest netAcceptor ni0 = true -> p r = netAcceptor).
Proof.
  intros ni0 net netAcceptor r Hneg Hge. unfold r.
  rewrite (solve_p_type _ _ _ _ _ _ Hneg Hge). fold ni0 net netAcceptor.
  cbn. repeat split; intros ->; reflexivity.
Qed.

Lemma p_type_regime_witness :
  let ni0 := intrinsic RefMath.impl silicon 400 defaultKB in
  let net := netDoping 0 1e15 in
  let netAcceptor := Math.abs net in
  let r := solve RefMath.impl silicon 400 0 1e15 defaultKB in
  ((net <? 0) = true /\ (ni0 <=? Math.abs net) = true) /\
  conductionType r = "p-type" /\
  ni r = ni0 /\
  n r = ni0 * ni0 / p r /\
  fermiLevel r = - defaultKB * 400 * Math_log RefMath.impl (p r / ni0) /\
  (shiftTest netAcceptor ni0 = false ->
   p r = (netAcceptor
          + Math.sqrt (netAcceptor * netAcceptor + 4 * ni0 * ni0)) / 2) /\
  (shiftTest netAcceptor ni0 = true -> p r = netAcceptor).
Proof.
  cbv zeta. split; [split; vm_compute; reflexivity|].
  apply p_type_regime; vm_compute; reflexivity.
Defined.

(** X7.  The silicon scenario of the specification, from the initial state:
    n-type, [n] within one percent of [1e16], [ni] between [1e9] and
    [1e11], a positive offset. *)
Example silicon_scenario :
  exists st,
    calculateConcentrations RefMath.impl initialState = Completed st /\
    conductionType (results st) = "n-type" /\
    (0.99e16 <? n (results st)) = true /\
    (n (results st) <? 1.01e16) = true /\
    (1e9 <? ni (results st)) = true /\
    (ni (results st) <? 1e11) = true /\
    (0 <? fermiLevel (results st)) = true.
Proof.
  eexists. split; [reflexivity|]. repeat split; vm_compute; reflexivity.
Qed.

(** X8.  The scenario without doping: intrinsic, [n = p = ni]. *)
Example undoped_scenario :
  exists st,
    calculateConcentrations RefMath.impl (withConditions 300 0 0 defaultKB)
      = Completed st /\
    conductionType (results st) = "Intrinsic" /\
    n (results st) = ni (results st) /\
    p (results st) = ni (results st) /\
    fermiLevel (results st) = 0.
Proof.
  eexists. split; [reflexivity|]. repeat split; vm_compute; reflexivity.
Qed.

(** ** The editor of the materials *)

Section Assign.

Context {A : Type}.

Lemma length_assign (l : list A) (i : nat) (x : A) :
  List.length (assign l i x) = List.length l.
Proof.
  revert i. induction l as [|y l IH]; intros [|i]; cbn; auto.
Qed.

Lemma nth_error_assign_eq (l : list A) (i : nat) (x y : A) :
  nth_error l i = Some y -> nth_error (assign l i x) i = Some x.
Proof.
  revert i. induction l as [|z l IH]; intros [|i]; cbn; try easy.
  apply IH.
Qed.

Lemma nth_error_assign_neq (l : list A) (i j : nat) (x : A) :
  i <> j -> nth_error (assign l i x) j = nth_error l j.
Proof.
  revert i j. induction l as [|z l IH]; intros [|i] [|j] H; cbn;
    try easy.
  apply IH. congruence.
Qed.

Lemma assign_assign (l : list A) (i : nat) (x y : A) :
  assign (assign l i x) i y = assign l i y.
Proof.
  revert i. induction l as [|z l IH]; intros [|i]; cbn; try easy.
  now rewrite IH.
Qed.

Lemma assign_comm (l : list A) (i j : nat) (x y : A) :
  i <> j -> assign (assign l i x) j y = assign (assign l j y) i x.
Proof.
  revert i j. induction l as [|z l IH]; intros [|i] [|j] H; cbn;
    try easy.
  rewrite IH; [reflexivity | congruence].
Qed.

Lemma nth_error_None_length (l : list A) (i : nat) :
  nth_error l i = None <-> (List.length l <= i)%nat.
Proof.
  revert i. induction l as [|z l IH]; intros [|i]; cbn;
    try (split; intros; (easy || lia)).
  rewrite IH. lia.
Qed.

End Assign.

Lemma map_name_assign (l : list MaterialProperties) (i : nat)
    (m x : MaterialProperties) :
  nth_error l i = Some m -> name x = name m ->
  map name (assign l i x) = map name l.
Proof.
  revert i. induction l as [|z l IH]; intros [|i]; cbn; try easy.
  - intros [= ->] ->. reflexivity.
  - intros H1 H2. now rewrite (IH _ H1 H2).
Qed.

Lemma name_withProperty (m : MaterialProperties) (k : MaterialKey)
    (v : float) : name (withProperty m k v) = name m.
Proof. now destruct k. Qed.

Lemma withProperty_twice (m : MaterialProperties) (k : MaterialKey)
    (v v' : float) :
  withProperty (withProperty m k v) k v' = withProperty m k v'.
Proof. now destruct k. Qed.

Lemma withProperty_comm (m : MaterialProperties) (k k' : MaterialKey)
    (v v' : float) :
  k <> k' ->
  withProperty (withProperty m k v) k' v'
  = withProperty (withProperty m k' v') k v.
Proof. destruct k, k'; easy. Qed.

(** X10.  Editing a property of a material: within the array the call
    sets that property of that material to the value and leaves its name
    and its other properties, the other materials, the length of the array
    and the rest of the state (the stored results included) as they were;
    past the end the result is outside the state space. *)
Theorem updateMaterialProperty_sets_one_property (st : AppState)
    (index : nat) (property : MaterialKey) (value : float) :
  match updateMaterialProperty st index property value with
  | Some st' =>
      (exists m m',
         nth_error (materials st) index = Some m /\
         nth_error (materials st') index = Some m' /\
         getProperty m' property = value /\
         (forall k, k <> property -> getProperty m' k = getProperty m k) /\
         name m' = name m) /\
      (forall j, j <> index ->
         nth_error (materials st') j = nth_error (materials st) j) /\
      List.length (materials st') = List.length (materials st) /\
      selectedMaterial st' = selectedMaterial st /\
      temperature st' = temperature st /\
      donorConc st' = donorConc st /\
      acceptorConc st' = acceptorConc st /\
      kB st' = kB st /\
      results st' = results st
  | None => (List.length (materials st) <= index)%nat
  end.
Proof.
  unfold updateMaterialProperty.
  destruct (nth_error (materials st) index) as [m|] eqn:E.
  - cbn. repeat split.
    + exists m, (withProperty m property value). repeat split.
      * now apply nth_error_assign_eq with (y := m).
      * now destruct property.
      * intros k Hk. destruct property, k; easy.
      * apply name_withProperty.
    + intros j Hj. apply nth_error_assign_neq. congruence.
    + apply length_assign.
  - now apply nth_error_None_length.
Qed.

(** X11.  Two edits of the same property of the same material: the last
    one wins.  Two edits of different properties, or of different
    materials: their order does not matter. *)
Theorem edits_compose (st : AppState) (i j : nat) (k k' : MaterialKey)
    (v v' : float) :
  editTwice st i k v i k v' = updateMaterialProperty st i k v' /\
  (i <> j \/ k <> k' ->
   editTwice st i k v j k' v' = editTwice st j k' v' i k v).
Proof.
  unfold editTwice, updateMaterialProperty. split.
  - destruct (nth_error (materials st) i) as [m|] eqn:E; [|reflexivity].
    cbn [materials setMaterials].
    rewrite (nth_error_assign_eq _ _ _ _ E).
    unfold setMaterials. cbn.
    now rewrite assign_assign, withProperty_twice.
  - intros H.
    destruct (Nat.eq_dec i j) as [<-|Hij].
    + destruct H as [H|H]; [easy|].
      destruct (nth_error (materials st) i) as [m|] eqn:E; [|reflexivity].
      cbn [materials setMaterials].
      rewrite !(nth_error_assign_eq _ _ _ _ E).
      unfold setMaterials. cbn.
      now rewrite !assign_assign, (withProperty_comm _ _ _ _ _ H).
    + destruct (nth_error (materials st) i) as [m|] eqn:Ei;
        destruct (nth_error (materials st) j) as [m'|] eqn:Ej;
        cbn [materials setMaterials];
        rewrite ?(nth_error_assign_neq _ _ _ _ Hij),
                ?(nth_error_assign_neq _ _ _ _ (not_eq_sym Hij)),
                ?Ei, ?Ej; try reflexivity.
      unfold setMaterials. cbn.
      now rewrite (assign_comm _ _ _ _ _ Hij).
Qed.

Lemma edits_compose_witness :
  (0 <> 0 \/ Key_bandgap <> Key_Nc300) /\
  editTwice initialState 0 Key_bandgap 1.2 0 Key_Nc300 3e19
  = editTwice initialState 0 Key_Nc300 3e19 0 Key_bandgap 1.2.
Proof.
  split; [right; discriminate|].
  apply edits_compose. right. discriminate.
Defined.

(** ** The states of the interface *)

Section Interface.

Variable M : MathImpl.

Lemma calculateConcentrations_inv (st st' : AppState) :
  calculateConcentrations M st = Completed st' ->
  exists material,
    nth_error (materials st) (selectedMaterial st) = Some material /\
    st' = setResults st
            (solve M material (temperature st) (donorConc st)
                   (acceptorConc st) (kB st)).
Proof.
  unfold calculateConcentrations.
  destruct (nth_error (materials st) (selectedMaterial st)) as [m|];
    [|discriminate].
  intros [= <-]. now exists m.
Qed.

Lemma wellFormed_selected (st : AppState) :
  wellFormed st ->
  exists material,
    nth_error (materials st) (selectedMaterial st) = Some material.
Proof.
  intros [_ H].
  destruct (nth_error (materials st) (selectedMaterial st)) as [m|] eqn:E;
    [now exists m|].
  apply nth_error_None_length in E. lia.
Qed.

Lemma wellFormed_length (st : AppState) :
  wellFormed st -> List.length (materials st) = 3%nat.
Proof.
  intros [H _]. apply (f_equal (@List.length _)) in H.
  now rewrite !length_map in H.
Qed.

Lemma handle_wellFormed (ev : Event) (st st' : AppState) :
  wellFormed st -> handle ev st = Some st' -> wellFormed st'.
Proof.
  intros [Hn Hs] H. destruct ev; cbn [handle] in H;
    try (injection H as <-; split; assumption).
  - unfold updateMaterialProperty in H.
    destruct (nth_error (materials st) index) as [m|] eqn:E;
      [|discriminate].
    injection H as <-. split; cbn.
    + rewrite (map_name_assign _ _ m); auto using name_withProperty.
    + now rewrite length_assign.
  - destruct (Nat.ltb_spec index (List.length (materials st)));
      [|discriminate].
    injection H as <-. split; assumption.
  - injection H as <-. split; cbn; [reflexivity|].
    apply (f_equal (@List.length _)) in Hn.
    rewrite !length_map in Hn. cbn in Hn. cbn. lia.
Qed.

(** In every state of the interface the materials are well formed and the
    stored results are those of the inputs of the state. *)
Lemma reachable_invariant (st : AppState) :
  reachable M st ->
  wellFormed st /\
  exists material,
    nth_error (materials st) (selectedMaterial st) = Some material /\
    results st = solve M material (temperature st) (donorConc st)
                       (acceptorConc st) (kB st).
Proof.
  induction 1 as [st H|st st' st'' ev _ [IH _] Hh Hc].
  - apply calculateConcentrations_inv in H as (m & Hm & ->).
    split; [split; cbn; [reflexivity|lia]|].
    exists m. now split.
  - pose proof (handle_wellFormed _ _ _ IH Hh) as Hw.
    apply calculateConcentrations_inv in Hc as (m & Hm & ->).
    split; [exact Hw|]. exists m. now split.
Qed.

(** X12.  The interface never makes [calculateConcentrations] raise: the
    first run completes, and in every state it can reach, whatever the user
    does next, the run that follows completes, on three materials that
    still carry the names of the defaults. *)
Theorem interface_never_raises (st st' : AppState) (ev : Event) :
  reachable M st ->
  handle ev st = Some st' ->
  (exists st'', calculateConcentrations M st' = Completed st'') /\
  ~ raises (calculateConcentrations M st') /\
  map name (materials st') = ["Silicon"; "Germanium"; "GaAs"] /\
  (selectedMaterial st' < 3)%nat.
Proof.
  intros Hr Hh.
  destruct (reachable_invariant _ Hr) as [Hw _].
  pose proof (handle_wellFormed _ _ _ Hw Hh) as Hw'.
  destruct (wellFormed_selected _ Hw') as [m Hm].
  pose proof (wellFormed_length _ Hw') as Hl.
  destruct Hw' as [Hn Hs]. rewrite Hl in Hs.
  unfold calculateConcentrations, raises. rewrite Hm.
  repeat split; try assumption.
  - eexists. reflexivity.
  - intros [e He]. discriminate He.
Qed.


(** X14.  Editing a material that is not the selected one changes none of
    the displayed results. *)
Theorem editing_another_material (st st' st'' : AppState) (index : nat)
    (property : MaterialKey) (value : float) :
  reachable M st ->
  index <> selectedMaterial st ->
  handle (ChangeMaterialProperty index property value) st = Some st' ->
  calculateConcentrations M st' = Completed st'' ->
  results st'' = results st.
Proof.
  intros Hr Hi Hh Hc.
  destruct (reachable_invariant _ Hr) as [_ (m & Hm & Hres)].
  cbn in Hh. unfold updateMaterialProperty in Hh.
  destruct (nth_error (materials st) index) as [m0|]; [|discriminate].
  injection Hh as <-.
  apply calculateConcentrations_inv in Hc as (m' & Hm' & ->).
  cbn in Hm' |- *.
  rewrite (nth_error_assign_neq _ _ _ _ Hi), Hm in Hm'.
  injection Hm' as <-. now rewrite Hres.
Qed.

(** X15.  Typing a donor or acceptor concentration, or pressing a preset,
    never changes the displayed intrinsic concentration. *)
Theorem doping_keeps_intrinsic (st st' st'' : AppState) (ev : Event) :
  reachable M st ->
  changesDoping ev = true ->
  handle ev st = Some st' ->
  calculateConcentrations M st' = Completed st'' ->
  ni (results st'') = ni (results st).
Proof.
  intros Hr Hev Hh Hc.
  destruct (reachable_invariant _ Hr) as [_ (m & Hm & Hres)].
  apply calculateConcentrations_inv in Hc as (m' & Hm' & ->).
  destruct ev; try discriminate Hev; cbn in Hh; injection Hh as <-;
    cbn in Hm' |- *; rewrite Hm in Hm'; injection Hm' as <-;
    rewrite Hres; unfold solve; now rewrite !ni_carriers.
Qed.

(** X16.  The preset "Intrinsic" gives the intrinsic record whenever the
    intrinsic concentration of the selected material is positive. *)
Theorem preset_intrinsic (st st' st'' : AppState)
    (material : MaterialProperties) :
  reachable M st ->
  nth_error (materials st) (selectedMaterial st) = Some material ->
  (0 <? intrinsic M material (temperature st) (kB st)) = true ->
  handle PresetIntrinsic st = Some st' ->
  calculateConcentrations M st' = Completed st'' ->
  let ni0 := intrinsic M material (temperature st) (kB st) in
  results st'' = {| ni := ni0; n := ni0; p := ni0; fermiLevel := 0;
                    conductionType := "Intrinsic" |}.
Proof.
  intros Hr Hm Hni Hh Hc ni0.
  cbn in Hh. injection Hh as <-.
  apply calculateConcentrations_inv in Hc as (m' & Hm' & ->).
  cbn in Hm' |- *. rewrite Hm in Hm'. injection Hm' as <-.
  unfold solve. change (netDoping 0 0) with 0.
  now rewrite carriers_intrinsic by exact Hni.
Qed.

Lemma run_reachable (evs : list Event) (st st' : AppState) :
  reachable M st -> run M evs st = Some st' -> reachable M st'.
Proof.
  revert st. induction evs as [|ev evs IH]; intros st Hr H; cbn in H.
  - now injection H as <-.
  - destruct (handle ev st) as [s1|] eqn:Hh; [|discriminate].
    destruct (calculateConcentrations M s1) as [s2|] eqn:Hc; [|discriminate].
    apply (IH s2); [|exact H].
    now apply (reachable_event M st s1 s2 ev).
Qed.

Lemma run_app (evs evs' : list Event) (st : AppState) :
  run M (evs ++ evs') st =
  match run M evs st with
  | Some st' => run M evs' st'
  | None => None
  end.
Proof.
  revert st. induction evs as [|ev evs IH]; intros st; cbn; [reflexivity|].
  destruct (handle ev st) as [s1|]; [|reflexivity].
  destruct (calculateConcentrations M s1) as [s2|]; [|reflexivity].
  apply IH.
Qed.

Lemma handle_constants_frame (ev : Event) (st st' st'' : AppState) :
  editsConstants ev = true ->
  handle ev st = Some st' ->
  calculateConcentrations M st' = Completed st'' ->
  selectedMaterial st'' = selectedMaterial st /\
  temperature st'' = temperature st /\
  donorConc st'' = donorConc st /\
  acceptorConc st'' = acceptorConc st.
Proof.
  intros He Hh Hc.
  apply calculateConcentrations_inv in Hc as (m & _ & ->).
  destruct ev; try discriminate He; cbn [handle] in Hh.
  - injection Hh as <-. now cbn.
  - unfold updateMaterialProperty in Hh.
    destruct (nth_error (materials st) index); [|discriminate].
    injection Hh as <-. now cbn.
  - injection Hh as <-. now cbn.
Qed.

Lemma run_constants_frame (evs : list Event) (st st' : AppState) :
  (forall ev, In ev evs -> editsConstants ev = true) ->
  run M evs st = Some st' ->
  selectedMaterial st' = selectedMaterial st /\
  temperature st' = temperature st /\
  donorConc st' = donorConc st /\
  acceptorConc st' = acceptorConc st.
Proof.
  revert st. induction evs as [|ev evs IH]; intros st Hall H; cbn in H.
  - injection H as <-. auto.
  - destruct (handle ev st) as [s1|] eqn:Hh; [|discriminate].
    destruct (calculateConcentrations M s1) as [s2|] eqn:Hc; [|discriminate].
    destruct (handle_constants_frame ev st s1 s2 (Hall ev (or_introl eq_refl))
                Hh Hc) as (E1 & E2 & E3 & E4).
    destruct (IH s2 (fun e He => Hall e (or_intror He)) H)
      as (F1 & F2 & F3 & F4).
    repeat split; congruence.
Qed.

Lemma state_inputs_equal (st1 st2 : AppState) :
  reachable M st1 -> reachable M st2 ->
  materials st1 = materials st2 ->
  selectedMaterial st1 = selectedMaterial st2 ->
  temperature st1 = temperature st2 ->
  donorConc st1 = donorConc st2 ->
  acceptorConc st1 = acceptorConc st2 ->
  kB st1 = kB st2 ->
  results st1 = results st2.
Proof.
  intros H1 H2 Em Es Et Ed Ea Ek.
  destruct (reachable_invariant _ H1) as [_ (m1 & Hm1 & R1)].
  destruct (reachable_invariant _ H2) as [_ (m2 & Hm2 & R2)].
  rewrite Em, Es, Hm2 in Hm1. injection Hm1 as <-.
  now rewrite R1, R2, Et, Ed, Ea, Ek.
Qed.


(** X18.  Reset undoes the editor: from a state with the default
    constants, any sequence of edits of the Boltzmann constant and of the
    materials followed by a reset leads back to that very state, results
    included. *)
Theorem reset_undoes_edits (evs : list Event) (st st' : AppState) :
  reachable M st ->
  materials st = defaultMaterials ->
  kB st = defaultKB ->
  (forall ev, In ev evs -> editsConstants ev = true) ->
  run M (evs ++ [Reset]) st = Some st' ->
  st' = st.
Proof.
  intros Hr Em Ek Hall Hrun.
  assert (Hr' : reachable M st') by exact (run_reachable _ _ _ Hr Hrun).
  assert (Hall' : forall ev, In ev (evs ++ [Reset]) ->
                             editsConstants ev = true).
  { intros ev Hin. apply in_app_or in Hin as [Hin|[<-|[]]]; auto. }
  destruct (run_constants_frame _ _ _ Hall' Hrun) as (E1 & E2 & E3 & E4).
  assert (Em' : materials st' = defaultMaterials /\ kB st' = defaultKB).
  { rewrite run_app in Hrun.
    destruct (run M evs st) as [s1|]; [|discriminate].
    cbn in Hrun.
    destruct (calculateConcentrations M (resetToDefaults s1)) as [s2|] eqn:Hc;
      [|discriminate].
    injection Hrun as <-.
    apply calculateConcentrations_inv in Hc as (m & _ & ->).
    now cbn. }
  destruct Em' as [Em' Ek'].
  assert (Er : results st' = results st).
  { apply state_inputs_equal; congruence. }
  destruct st, st'. cbn in *. congruence.
Qed.

End Interface.

Lemma reachable_mounted : reachable RefMath.impl mounted.
Proof. apply reachable_mount. reflexivity. Qed.

Lemma interface_never_raises_witness :
  (reachable RefMath.impl mounted /\
   handle (SelectMaterial 2) mounted
   = Some (setSelectedMaterial mounted 2)) /\
  (exists st'',
     calculateConcentrations RefMath.impl (setSelectedMaterial mounted 2)
     = Completed st'') /\
  ~ raises (calculateConcentrations RefMath.impl
              (setSelectedMaterial mounted 2)) /\
  map name (materials (setSelectedMaterial mounted 2))
  = ["Silicon"; "Germanium"; "GaAs"] /\
  (selectedMaterial (setSelectedMaterial mounted 2) < 3)%nat.
Proof.
  split; [split; [exact reachable_mounted | reflexivity]|].
  apply (interface_never_raises RefMath.impl mounted _ (SelectMaterial 2));
    [exact reachable_mounted | reflexivity].
Defined.


Lemma editing_another_material_witness :
  (reachable RefMath.impl mounted /\
   1%nat <> selectedMaterial mounted /\
   handle (ChangeMaterialProperty 1 Key_bandgap 0.7) mounted
   = Some germaniumEdited /\
   calculateConcentrations RefMath.impl germaniumEdited
   = Completed germaniumEdited) /\
  results germaniumEdited = results mounted.
Proof.
  assert (H : calculateConcentrations RefMath.impl germaniumEdited
              = Completed germaniumEdited) by reflexivity.
  split; [repeat split;
          first [exact reachable_mounted | discriminate | reflexivity]|].
  apply (editing_another_material RefMath.impl mounted germaniumEdited
           germaniumEdited 1 Key_bandgap 0.7);
    [exact reachable_mounted | discriminate | reflexivity | exact H].
Defined.

Lemma doping_keeps_intrinsic_witness :
  (reachable RefMath.impl mounted /\
   changesDoping PresetPType = true /\
   handle PresetPType mounted
   = Some (setAcceptorConc (setDonorConc mounted 0) 1e16) /\
   calculateConcentrations RefMath.impl
     (setAcceptorConc (setDonorConc mounted 0) 1e16)
   = Completed presetPType) /\
  ni (results presetPType) = ni (results mounted).
Proof.
  split; [repeat split; first [exact reachable_mounted | reflexivity]|].
  apply (doping_keeps_intrinsic RefMath.impl mounted
           (setAcceptorConc (setDonorConc mounted 0) 1e16)
           presetPType PresetPType);
    [exact reachable_mounted | reflexivity | reflexivity | reflexivity].
Defined.

Lemma preset_intrinsic_witness :
  (reachable RefMath.impl mounted /\
   nth_error (materials mounted) (selectedMaterial mounted) = Some silicon /\
   (0 <? intrinsic RefMath.impl silicon (temperature mounted) (kB mounted))
   = true /\
   handle PresetIntrinsic mounted
   = Some (setAcceptorConc (setDonorConc mounted 0) 0) /\
   calculateConcentrations RefMath.impl
     (setAcceptorConc (setDonorConc mounted 0) 0)
   = Completed presetIntrinsic) /\
  (let ni0 :=
     intrinsic RefMath.impl silicon (temperature mounted) (kB mounted) in
   results presetIntrinsic
   = {| ni := ni0; n := ni0; p := ni0; fermiLevel := 0;
        conductionType := "Intrinsic" |}).
Proof.
  assert (Hni : (0 <? intrinsic RefMath.impl silicon (temperature mounted)
                        (kB mounted)) = true) by (vm_compute; reflexivity).
  split; [repeat split;
          first [exact reachable_mounted | exact Hni | reflexivity]|].
  apply (preset_intrinsic RefMath.impl mounted
           (setAcceptorConc (setDonorConc mounted 0) 0) presetIntrinsic
           silicon);
    [exact reachable_mounted | reflexivity | exact Hni
    | reflexivity | reflexivity].
Defined.

(** ** Reset, the modified flag and the formatting *)



Lemma someEdits_constants (ev : Event) :
  In ev someEdits -> editsConstants ev = true.
Proof. intros [<-|[<-|[]]]; reflexivity. Qed.

Lemma reset_undoes_edits_witness :
  (reachable RefMath.impl mounted /\
   materials mounted = defaultMaterials /\
   kB mounted = defaultKB /\
   (forall ev, In ev someEdits -> editsConstants ev = true) /\
   run RefMath.impl (someEdits ++ [Reset]) mounted = Some editedAndReset) /\
  editedAndReset = mounted.
Proof.
  assert (H : run RefMath.impl (someEdits ++ [Reset]) mounted
              = Some editedAndReset) by reflexivity.
  split; [repeat split;
          first [exact reachable_mounted | exact someEdits_constants
                | exact H | reflexivity]|].
  apply (reset_undoes_edits RefMath.impl someEdits mounted editedAndReset);
    first [exact reachable_mounted | exact someEdits_constants
          | exact H | reflexivity].
Defined.

(** X19.  After [resetToDefaults] the constants are the defaults and
    [isModified] is false, whatever the state was and however the engine
    prints; the selection, the temperature, the concentrations and the
    stored results are untouched, and a second reset changes nothing.  A
    Boltzmann constant that is not [===] the default, NaN included, always
    sets the flag. *)
Theorem reset_clears_modified
    (JSON_stringify : list MaterialProperties -> string) (st : AppState) :
  let st' := resetToDefaults st in
  isModified JSON_stringify st' = false /\
  materials st' = defaultMaterials /\
  kB st' = defaultKB /\
  selectedMaterial st' = selectedMaterial st /\
  temperature st' = temperature st /\
  donorConc st' = donorConc st /\
  acceptorConc st' = acceptorConc st /\
  results st' = results st /\
  resetToDefaults st' = st' /\
  (forall v, (v =? defaultKB) = false ->
             isModified JSON_stringify (setKB st v) = true) /\
  isModified JSON_stringify (setKB st nan) = true.
Proof.
  cbv zeta. unfold isModified. cbn.
  rewrite String.eqb_refl. repeat split.
  intros v ->. reflexivity.
Qed.

Section Display.

Variable F : NumberImpl.
Variable M : MathImpl.

Lemma length_append (a b : string) :
  String.length (a ++ b) = (String.length a + String.length b)%nat.
Proof. induction a as [|c a IH]; cbn; [reflexivity | now rewrite IH]. Qed.

(** X20.  [formatScientific] gives ["0"] for the two zeros and for nothing
    else: no other number, however small, and no NaN is displayed as
    zero. *)
Theorem formatScientific_zero (value : float) :
  formatScientific F M value = "0" <-> (value =? 0) = true.
Proof.
  unfold formatScientific. destruct (value =? 0).
  - tauto.
  - split; [|discriminate]. intros H.
    apply (f_equal String.length) in H.
    rewrite !length_append in H. cbn in H. lia.
Qed.

(** X21.  With equal donor and acceptor concentrations (numbers, not
    infinities) the line "Net Doping" reads ["0"]. *)
Theorem net_doping_line_zero (st : AppState) :
  finite (donorConc st) = true ->
  acceptorConc st = donorConc st ->
  netDopingLine F M st = "0".
Proof.
  intros Hf E. unfold netDopingLine. rewrite E.
  now rewrite (sub_diag _ Hf).
Qed.

End Display.

Lemma net_doping_line_zero_witness :
  (finite (donorConc (withConditions 300 1e16 1e16 defaultKB)) = true /\
   acceptorConc (withConditions 300 1e16 1e16 defaultKB)
   = donorConc (withConditions 300 1e16 1e16 defaultKB)) /\
  netDopingLine RefFormat.impl RefMath.impl
    (withConditions 300 1e16 1e16 defaultKB) = "0".
Proof.
  split; [split; reflexivity|].
  apply net_doping_line_zero; reflexivity.
Defined.

(** X22.  The line "Majority Carrier" reads "Holes" in the whole intrinsic
    regime, where [n] and [p] are equal: it reads "Electrons" only when [n]
    is greater than [p]. *)
Theorem majority_carrier_intrinsic (M : MathImpl)
    (material : MaterialProperties)
    (temperature donorConc acceptorConc kB : float) :
  (Math.abs (netDoping donorConc acceptorConc)
   <? intrinsic M material temperature kB) = true ->
  majorityCarrier (solve M material temperature donorConc acceptorConc kB)
  = "Holes".
Proof.
  intros H. unfold solve. rewrite (carriers_intrinsic _ _ _ _ _ H).
  unfold majorityCarrier. cbn [n p]. now rewrite ltb_irrefl.
Qed.

Lemma majority_carrier_intrinsic_witness :
  (Math.abs (netDoping 0 0) <? intrinsic RefMath.impl silicon 300 defaultKB)
  = true /\
  majorityCarrier (solve RefMath.impl silicon 300 0 0 defaultKB) = "Holes".
Proof.
  split; [vm_compute; reflexivity|].
  apply majority_carrier_intrinsic. vm_compute. reflexivity.
Defined.

(** What the interface shows for the first state, and two edges of the
    formatting: a coefficient that rounds up to ten, and a negative offset
    that rounds to zero. *)
Example display_of_mounted :
  formatScientific RefFormat.impl RefMath.impl (ni (results mounted))
  = "6.67 × 10^9" /\
  formatScientific RefFormat.impl RefMath.impl (n (results mounted))
  = "1.00 × 10^16" /\
  formatScientific RefFormat.impl RefMath.impl (p (results mounted))
  = "4.45 × 10^3" /\
  formatEnergy RefFormat.impl (fermiLevel (results mounted)) = "367.6 meV" /\
  majorityCarrier (results mounted) = "Electrons" /\
  formatScientific RefFormat.impl RefMath.impl 999900 = "10.00 × 10^5" /\
  formatEnergy RefFormat.impl (-0.00001) = "-0.0 meV".
Proof. repeat split; vm_compute; reflexivity. Qed.
